(** * nsp2clab: from an NSP IETF L2 topology to a containerlab topology

    A shallow embedding of [nsp2clab.py].  Python values are an inductive
    type, Python exceptions are the error side of a [result], and the
    effects of [main] (HTTP requests, prints, prompts, the output file) are
    recorded in a trace threaded through a small state-and-error monad. *)

From Stdlib Require Import ZArith NArith Ascii String List Lia Bool.
From stdpp Require Import base option list strings gmap.

Local Open Scope string_scope.
Local Open Scope Z_scope.
Local Open Scope list_scope.
Local Set Warnings "-register-all".

(** ** Python values and exceptions *)

(** The values [json.loads] can produce, floats apart (a JSON number is an
    [int] here), with [dict] as its list of items in insertion order.  A
    [str] is a sequence of one-byte characters. *)
Inductive pyval : Type :=
  | PNone
  | PBool (b : bool)
  | PInt (z : Z)
  | PStr (s : string)
  | PList (l : list pyval)
  | PDict (d : list (pyval * pyval)).

(** The exception classes the program can meet.  [RequestException] stands
    for any failure of [requests] other than a [ProxyError] or a body that
    is not JSON. *)
Inductive exn : Type :=
  | KeyError (k : pyval)
  | IndexError
  | TypeError
  | AttributeError
  | UnboundLocalError
  | EOFError
  | OSError
  | ProxyError
  | RequestException
  | JSONDecodeError
  | SystemExit (code : Z).

Inductive result (A : Type) : Type :=
  | Ok (a : A)
  | Raise (e : exn).
Arguments Ok {A} a.
Arguments Raise {A} e.

Global Instance result_ret : MRet result := λ A a, Ok a.

Global Instance result_bind : MBind result := λ A B k r,
  match r with
  | Ok a => k a
  | Raise e => Raise e
  end.

(** ** Dictionaries *)

(** What [hash] and [==] see of a key: [True == 1] and [False == 0], and
    values of different kinds are never equal.  Lists and dicts are
    unhashable. *)
Inductive hkey : Type :=
  | HNone
  | HNum (z : Z)
  | HStr (s : string).

Global Instance hkey_eq_dec : EqDecision hkey.
Proof. solve_decision. Defined.

Definition hashable (v : pyval) : option hkey :=
  match v with
  | PNone => Some HNone
  | PBool b => Some (HNum (Z.b2z b))
  | PInt z => Some (HNum z)
  | PStr s => Some (HStr s)
  | PList _ | PDict _ => None
  end.

Definition same_key (h : hkey) (k : pyval) : bool :=
  bool_decide (hashable k = Some h).

(** [d[k]] on the items of a dict, the key already hashed. *)
Fixpoint dict_lookup (h : hkey) (d : list (pyval * pyval)) : option pyval :=
  match d with
  | [] => None
  | (k, v) :: d' => if same_key h k then Some v else dict_lookup h d'
  end.

(** [d[k] = v] on the items of a dict: an equal key keeps its place and
    its first key object and takes the new value, a new key goes last. *)
Fixpoint dict_store (h : hkey) (k v : pyval) (d : list (pyval * pyval))
  : list (pyval * pyval) :=
  match d with
  | [] => [(k, v)]
  | (k', v') :: d' =>
      if same_key h k' then (k', v) :: d' else (k', v') :: dict_store h k v d'
  end.

Definition dict_setitem (d : list (pyval * pyval)) (k v : pyval)
  : result (list (pyval * pyval)) :=
  match hashable k with
  | Some h => Ok (dict_store h k v d)
  | None => Raise TypeError
  end.

(** ** Subscription and iteration *)

(** A sequence index: negative indices count from the end. *)
Definition seq_index {A} (l : list A) (i : Z) : result A :=
  let n := Z.of_nat (length l) in
  let j := if i <? 0 then i + n else i in
  if (j <? 0) || (n <=? j) then Raise IndexError
  else match l !! Z.to_nat j with
       | Some x => Ok x
       | None => Raise IndexError
       end.

Definition chars (s : string) : list pyval :=
  (fun c => PStr (String c "")) <$> list_ascii_of_string s.

Definition as_index (k : pyval) : option Z :=
  match k with
  | PInt i => Some i
  | PBool b => Some (Z.b2z b)
  | _ => None
  end.

(** [x[k]]. *)
Definition getitem (x k : pyval) : result pyval :=
  match x with
  | PDict d =>
      match hashable k with
      | Some h =>
          match dict_lookup h d with
          | Some v => Ok v
          | None => Raise (KeyError k)
          end
      | None => Raise TypeError
      end
  | PList l =>
      match as_index k with
      | Some i => seq_index l i
      | None => Raise TypeError
      end
  | PStr s =>
      match as_index k with
      | Some i => seq_index (chars s) i
      | None => Raise TypeError
      end
  | PNone | PBool _ | PInt _ => Raise TypeError
  end.

(** The items a [for] loop over [x] visits: the elements of a list, the
    keys of a dict, the characters of a str. *)
Definition iter (x : pyval) : result (list pyval) :=
  match x with
  | PList l => Ok l
  | PDict d => Ok (fst <$> d)
  | PStr s => Ok (chars s)
  | PNone | PBool _ | PInt _ => Raise TypeError
  end.

(** A loop whose body may raise: the first exception ends it. *)
Fixpoint for_each {S} (body : S → pyval → result S) (s : S) (items : list pyval)
  : result S :=
  match items with
  | [] => Ok s
  | x :: items' => s' ← body s x; for_each body s' items'
  end.

(** ** [str.split('--')] *)

(** [c] put in front of the first segment. *)
Definition push_char (c : ascii) (segs : list string) : list string :=
  match segs with
  | seg :: segs' => String c seg :: segs'
  | [] => [String c EmptyString]
  end.

(** The segments of [s] between the occurrences of [--], found from the
    left and not overlapping; the list is never empty. *)
Fixpoint split_dd (s : string) : list string :=
  match s with
  | EmptyString => [EmptyString]
  | String c rest =>
      match rest with
      | String c' rest' =>
          if Ascii.eqb c "-" && Ascii.eqb c' "-"
          then EmptyString :: split_dd rest'
          else push_char c (split_dd rest)
      | EmptyString => push_char c (split_dd rest)
      end
  end.

(** ['--' in s]. *)
Fixpoint has_dd (s : string) : bool :=
  match s with
  | EmptyString => false
  | String c rest =>
      match rest with
      | String c' _ => (Ascii.eqb c "-" && Ascii.eqb c' "-") || has_dd rest
      | EmptyString => false
      end
  end.

(** ['--'.join(segs)]. *)
Fixpoint join_dd (segs : list string) : string :=
  match segs with
  | [] => EmptyString
  | [seg] => seg
  | seg :: segs' => seg +:+ "--" +:+ join_dd segs'
  end.

(** [name.split('--')]: only a str has the method. *)
Definition str_split (name : pyval) : result pyval :=
  match name with
  | PStr s => Ok (PList (PStr <$> split_dd s))
  | _ => Raise AttributeError
  end.

(** [f"{v}"] for a str is the str itself. *)
Definition fmt (v : pyval) : pyval := v.

(** ** The translation: [generate_topology] *)

Definition node_attrs_key : pyval := PStr "ietf-l2-topology:l2-node-attributes".
Definition link_attrs_key : pyval := PStr "ietf-l2-topology:l2-link-attributes".

(** The entry the body of the node loop builds for one node. *)
Definition clab_node (node_mgmt_ip : pyval) : pyval :=
  PDict [ (PStr "kind", PStr "nokia-sros");
          (PStr "image", PStr "containerlab/vr-sros");
          (PStr "mgmt-ipv4", node_mgmt_ip) ].

(** The three reads of the node loop's body; [node_id] is read and not
    used. *)
Definition node_entry (node : pyval) : result (pyval * pyval) :=
  node_id ← getitem node (PStr "node-id");
  attrs ← getitem node node_attrs_key;
  node_name ← getitem attrs (PStr "name");
  attrs' ← getitem node node_attrs_key;
  addrs ← getitem attrs' (PStr "management-address");
  node_mgmt_ip ← getitem addrs (PInt 0);
  Ok (node_name, clab_node node_mgmt_ip).

(** One turn of the node loop on [topology["topology"]["nodes"]]. *)
Definition node_step (nodes : list (pyval * pyval)) (node : pyval)
  : result (list (pyval * pyval)) :=
  e ← node_entry node;
  dict_setitem nodes e.1 e.2.

Definition clab_link (src_endpoint dst_endpoint : pyval) : pyval :=
  PDict [ (PStr "endpoints", PList [fmt src_endpoint; fmt dst_endpoint]) ].

Definition link_entry (link : pyval) : result pyval :=
  attrs ← getitem link link_attrs_key;
  name ← getitem attrs (PStr "name");
  parts ← str_split name;
  src_endpoint ← getitem parts (PInt 0);
  attrs' ← getitem link link_attrs_key;
  name' ← getitem attrs' (PStr "name");
  parts' ← str_split name';
  dst_endpoint ← getitem parts' (PInt (-1));
  Ok (clab_link src_endpoint dst_endpoint).

(** One turn of the link loop on [topology["topology"]["links"]]. *)
Definition link_step (links : list pyval) (link : pyval) : result (list pyval) :=
  e ← link_entry link;
  Ok (links ++ [e]).

(** [json_data["ietf-network:network"][0][field]], as the loops iterate it. *)
Definition source_items (json_data : pyval) (field : string) : result (list pyval) :=
  networks ← getitem json_data (PStr "ietf-network:network");
  network ← getitem networks (PInt 0);
  coll ← getitem network (PStr field);
  iter coll.

Definition clab_topology (nodes : list (pyval * pyval)) (links : list pyval) : pyval :=
  PDict [ (PStr "topology",
           PDict [ (PStr "nodes", PDict nodes); (PStr "links", PList links) ]) ].

Definition generate_topology (json_data : pyval) : result pyval :=
  node_items ← source_items json_data "node";
  nodes ← for_each node_step [] node_items;
  link_items ← source_items json_data "ietf-network-topology:link";
  links ← for_each link_step [] link_items;
  Ok (clab_topology nodes links).

(** Builders for source documents. *)
Definition ietf_node (node_id name : pyval) (addrs : pyval) : pyval :=
  PDict [ (PStr "node-id", node_id);
          (node_attrs_key,
           PDict [ (PStr "name", name); (PStr "management-address", addrs) ]) ].

Definition ietf_link (name : pyval) : pyval :=
  PDict [ (link_attrs_key, PDict [ (PStr "name", name) ]) ].

Definition ietf_doc (nodes links : list pyval) : pyval :=
  PDict [ (PStr "ietf-network:network",
           PList [ PDict [ (PStr "node", PList nodes);
                           (PStr "ietf-network-topology:link", PList links) ] ]) ].


(** ** Basic authentication *)

Definition b64_alphabet : string :=
  "ABCDEFGHIJKLMNOPQRSTUVWXYZabcdefghijklmnopqrstuvwxyz0123456789+/".

Definition b64_char (n : N) : ascii :=
  match String.get (N.to_nat n) b64_alphabet with
  | Some c => c
  | None => "="%char
  end.

(** Three bytes give four characters; one or two left over are padded. *)
Fixpoint b64_bytes (l : list N) : string :=
  match l with
  | [] => ""
  | [a] =>
      let n := (a * 65536)%N in
      String (b64_char (n / 262144)) (String (b64_char ((n / 4096) mod 64)) "==")
  | [a; b] =>
      let n := (a * 65536 + b * 256)%N in
      String (b64_char (n / 262144))
        (String (b64_char ((n / 4096) mod 64))
           (String (b64_char ((n / 64) mod 64)) "="))
  | a :: b :: c :: l' =>
      let n := (a * 65536 + b * 256 + c)%N in
      String (b64_char (n / 262144))
        (String (b64_char ((n / 4096) mod 64))
           (String (b64_char ((n / 64) mod 64))
              (String (b64_char (n mod 64)) (b64_bytes l'))))
  end.

(** [b64encode(bytes(s, "utf-8")).decode("utf-8")], a character of [s]
    being one byte. *)
Definition b64encode (s : string) : string :=
  b64_bytes (N_of_ascii <$> list_ascii_of_string s).

Definition getBasicAuthentication (username password : string) : string :=
  b64encode (username +:+ ":" +:+ password).



(** ** The world of a run and its trace *)

Inductive http_method : Type := GET | POST.

(** A call of [requests.get] or [requests.post] with its keyword
    arguments. *)
Record request : Type := Request {
  req_method : http_method;
  req_url : string;
  req_headers : list (string * string);
  req_data : option string;
  req_verify : bool;
  req_proxies : list (string * string)
}.

(** What the program reads of a response: its status code, and its body
    parsed by [.json()], [None] when the body is not JSON. *)
Record response : Type := Response {
  status_code : Z;
  json : option pyval
}.

(** Everything outside the process.  The three requests of a run have
    three different URLs, so one answer per request is as general as an
    answer that depends on the history. *)
Record world : Type := World {
  environ : gmap string string;
  send : request → result response;
  stdin_line : option string;
  tty_line : option string;
  cwd : string;
  can_open : string → bool
}.

(** A printed text, its interpolated values kept apart. *)
Inductive message : Type :=
  | Text (s : string)
  | ProxyFailure (error : exn) (proxies : list (string * string)) (proxy_user : string)
  | TokenKeyError (error : exn) (token : pyval).

Inductive event : Type :=
  | Printed (m : message)
  | Prompted (prompt : string)
  | Sent (r : request)
  | Opened (path : string)
  | Dumped (path : string) (doc : pyval).

(** A computation with effects: from the trace so far to a result and the
    trace extended. *)
Definition IO (A : Type) : Type := list event → result A * list event.

Global Instance IO_ret : MRet IO := λ A a t, (Ok a, t).

Global Instance IO_bind : MBind IO := λ A B k m t,
  match m t with
  | (Ok a, t') => k a t'
  | (Raise e, t') => (Raise e, t')
  end.

Definition emit (ev : event) : IO unit := λ t, (Ok tt, t ++ [ev]).
Definition raise {A} (e : exn) : IO A := λ t, (Raise e, t).
Definition lift {A} (r : result A) : IO A := λ t, (r, t).

(** [os.environ[name]]. *)
Definition environ_get (w : world) (name : string) : result string :=
  match environ w !! name with
  | Some v => Ok v
  | None => Raise (KeyError (PStr name))
  end.

(** [prefix + v]: a str takes only a str. *)
Definition str_concat (prefix : string) (v : pyval) : result string :=
  match v with
  | PStr s => Ok (prefix +:+ s)
  | _ => Raise TypeError
  end.

(** [requests.get] and [requests.post]. *)
Definition http (w : world) (r : request) : IO response :=
  _ ← emit (Sent r); lift (send w r).

(** [response.json()]. *)
Definition response_json (r : response) : result pyval :=
  match json r with
  | Some v => Ok v
  | None => Raise JSONDecodeError
  end.

(** The truth value of an optional argument: [None] and [""] are false. *)
Definition truthy (o : option string) : bool :=
  match o with
  | Some s => negb (String.eqb s "")
  | None => false
  end.

Fixpoint endswith_sep (s : string) : bool :=
  match s with
  | EmptyString => false
  | String c EmptyString => Ascii.eqb c "/"
  | String _ s' => endswith_sep s'
  end.

(** [os.path.join(a, b)] of [posixpath]. *)
Definition path_join (a b : string) : string :=
  if String.prefix "/" b then b
  else if String.eqb a "" || endswith_sep a then a +:+ b
  else a +:+ "/" +:+ b.

(** ** The session functions *)

Definition get_username (w : world) (prompt : string) : IO string :=
  _ ← emit (Printed (Text prompt));
  match stdin_line w with
  | Some username => mret username
  | None => raise EOFError
  end.

(** [getpass.getpass(prompt)]. *)
Definition getpass (w : world) (prompt : string) : IO string :=
  _ ← emit (Prompted prompt);
  match tty_line w with
  | Some password => mret password
  | None => raise EOFError
  end.

(** [json.dumps({"grant_type": "client_credentials"})]. *)
Definition json_str (s : string) : string :=
  String "034"%char s +:+ String "034"%char EmptyString.

Definition grant_body : string :=
  "{" +:+ json_str "grant_type" +:+ ": " +:+ json_str "client_credentials" +:+ "}".

Definition token_request (nsp_server username password : string)
    (proxies : list (string * string)) : request :=
  {| req_method := POST;
     req_url := "https://" +:+ nsp_server +:+ "/rest-gateway/rest/api/v1/auth/token";
     req_headers :=
       [ ("Content-Type", "application/json");
         ("Authorization", "Basic " +:+ getBasicAuthentication username password) ];
     req_data := Some grant_body;
     req_verify := false;
     req_proxies := proxies |}.

Definition getToken (w : world) (nsp_server username password : string)
    (proxies : list (string * string)) : IO pyval :=
  token ← http w (token_request nsp_server username password proxies);
  lift (response_json token).

Definition revocation_request (nsp_server username password body : string)
    (proxies : list (string * string)) : request :=
  {| req_method := POST;
     req_url := "https://" +:+ nsp_server +:+ "/rest-gateway/rest/api/v1/auth/revocation";
     req_headers :=
       [ ("Content-Type", "application/x-www-form-urlencoded");
         ("Authorization", "Basic " +:+ getBasicAuthentication username password) ];
     req_data := Some body;
     req_verify := false;
     req_proxies := proxies |}.

Definition revokeToken (w : world) (nsp_server username password : string)
    (token : pyval) (proxies : list (string * string)) : IO unit :=
  body ← lift (str_concat "token=" token);
  revToken ← http w (revocation_request nsp_server username password
                       (body +:+ "&token_type_hint=token") proxies);
  if status_code revToken =? 200
  then emit (Printed (Text "Succesfully revoked token."))
  else emit (Printed (Text "Error after token revocation attempt.")).

Definition topology_request (nsp_server : string)
    (proxies headers : list (string * string)) : request :=
  {| req_method := GET;
     req_url := "https://" +:+ nsp_server
                +:+ "/restconf/data/ietf-network:networks/network=L2Topology";
     req_headers := headers;
     req_data := None;
     req_verify := false;
     req_proxies := proxies |}.

Definition retrieveNspL2IetfTopo (w : world) (nsp_server : string)
    (proxies headers : list (string * string)) : IO pyval :=
  l2topo ← http w (topology_request nsp_server proxies headers);
  lift (response_json l2topo).

(** ** [main] *)

(** The two [except] clauses of the [try] around token acquisition.
    [token] is the local variable as the handler finds it: unbound when
    [getToken] itself raised, the whole response otherwise. *)
Definition on_token_error (w : world) (proxies : list (string * string))
    (token : option pyval) (error : exn) : IO pyval :=
  match error with
  | ProxyError =>
      proxy_user ← lift (environ_get w "PROXY_USER");
      _ ← emit (Printed (ProxyFailure error proxies proxy_user));
      raise (SystemExit 0)
  | KeyError _ =>
      token ← lift (match token with
                    | Some v => Ok v
                    | None => Raise UnboundLocalError
                    end);
      _ ← emit (Printed (TokenKeyError error token));
      raise (SystemExit 0)
  | _ => raise error
  end.

(** The [try] block: [token = getToken(...)], then
    [token = token["access_token"]]. *)
Definition acquire (w : world) (server username password : string)
    (proxies : list (string * string)) : IO pyval :=
  λ t,
    match getToken w server username password proxies t with
    | (Ok token, t') =>
        match getitem token (PStr "access_token") with
        | Ok access_token => (Ok access_token, t')
        | Raise error => on_token_error w proxies (Some token) error t'
        end
    | (Raise error, t') => on_token_error w proxies None error t'
    end.

(** [with open(output, 'w') as file: yaml.dump(dict(topology), file)]. *)
Definition write_yaml (w : world) (output : string) (topology : pyval) : IO unit :=
  if can_open w output
  then _ ← emit (Opened output); emit (Dumped output topology)
  else raise OSError.

Definition main (w : world) (server : string)
    (username password output proxy : option string) : IO unit :=
  let proxies :=
    match proxy with
    | Some p => if truthy proxy then [("https", "http://" +:+ p)] else []
    | None => []
    end in
  username ← (match username with
              | Some u => if truthy username then mret u
                          else get_username w "Enter your username: "
              | None => get_username w "Enter your username: "
              end);
  password ← (match password with
              | Some p => if truthy password then mret p
                          else getpass w "Enter your password: "
              | None => getpass w "Enter your password: "
              end);
  token ← acquire w server username password proxies;
  bearer ← lift (str_concat "Bearer " token);
  let headers := [ ("Content-Type", "application/json"); ("Authorization", bearer) ] in
  nsp_server ← lift (environ_get w "NSP_SERVER");
  l2topo ← retrieveNspL2IetfTopo w nsp_server proxies headers;
  _ ← revokeToken w server username password token proxies;
  topology ← lift (generate_topology l2topo);
  let output :=
    match output with
    | Some o => if truthy output then o else path_join (cwd w) "data.clab.yaml"
    | None => path_join (cwd w) "data.clab.yaml"
    end in
  write_yaml w output topology.

(** A run from the empty trace, and the status the process exits with:
    0 after a normal return, the code of [sys.exit], 1 after any other
    exception left uncaught. *)
Definition run (w : world) (server : string)
    (username password output proxy : option string) : result unit * list event :=
  main w server username password output proxy [].

Definition exit_status (r : result unit) : Z :=
  match r with
  | Ok _ => 0
  | Raise (SystemExit code) => code
  | Raise _ => 1
  end.

Definition requests_of (t : list event) : list request :=
  omap (λ ev, match ev with Sent r => Some r | _ => None end) t.

Definition files_of (t : list event) : list string :=
  omap (λ ev, match ev with Opened p => Some p | _ => None end) t.

(** ** Reading source and target documents *)

(** [link["ietf-l2-topology:l2-link-attributes"]["name"]]. *)
Definition link_name (link : pyval) : result pyval :=
  attrs ← getitem link link_attrs_key;
  getitem attrs (PStr "name").

(** [name.split('--')[0]] and [name.split('--')[-1]] for a str. *)
Definition first_segment (s : string) : string := default s (head (split_dd s)).
Definition last_segment (s : string) : string := default s (last (split_dd s)).

(** [topology["topology"]["nodes"]] and [topology["topology"]["links"]]. *)
Definition target_nodes (topology : pyval) : result pyval :=
  t ← getitem topology (PStr "topology");
  getitem t (PStr "nodes").

Definition target_links (topology : pyval) : result pyval :=
  t ← getitem topology (PStr "topology");
  getitem t (PStr "links").

(** How many items of a dict have a key equal to the hashed key [h]. *)
Definition count_key (h : hkey) (d : list (pyval * pyval)) : nat :=
  length (filter (λ kv, same_key h kv.1 = true) d).

(** No two items of the dict have equal keys. *)
Definition unique_keys (d : list (pyval * pyval)) : Prop :=
  ∀ h, (count_key h d ≤ 1)%nat.

(** The name [h] is derived by no node of [items] after the first [j]. *)
Definition not_after (h : hkey) (j : nat) (items : list pyval) : Prop :=
  ∀ (k : nat) z e,
    (j ≤ k)%nat → items !! k = Some z → node_entry z = Ok e → hashable e.1 ≠ Some h.

(** ** Describing runs *)

(** The proxies [main] builds from its [proxy] argument. *)
Definition proxies_of (proxy : option string) : list (string * string) :=
  match proxy with
  | Some p => if truthy proxy then [("https", "http://" +:+ p)] else []
  | None => []
  end.

(** The credential [main] goes on with: the argument when it is true,
    what is typed at the prompt otherwise ([None]: end of input). *)
Definition resolved (typed arg : option string) : option string :=
  if truthy arg then arg else typed.

(** The prompts [main] shows for the credentials it was not given. *)
Definition prompt_events (username password : option string) : list event :=
  (if truthy username then [] else [Printed (Text "Enter your username: ")])
  ++ (if truthy password then [] else [Prompted "Enter your password: "]).

(** The path [main] writes to. *)
Definition output_path (w : world) (output : option string) : string :=
  match output with
  | Some o => if truthy output then o else path_join (cwd w) "data.clab.yaml"
  | None => path_join (cwd w) "data.clab.yaml"
  end.

(** The headers of the topology query for a token that is a str. *)
Definition bearer_headers (token : string) : list (string * string) :=
  [ ("Content-Type", "application/json"); ("Authorization", "Bearer " +:+ token) ].

(** A controller that answers by the kind of request: the topology GET,
    the token POST (known by its body), the revocation POST. *)
Definition scripted (token topo revocation : result response) (r : request)
  : result response :=
  match req_method r with
  | GET => topo
  | POST => if decide (req_data r = Some grant_body) then token else revocation
  end.

Definition token_response (token : string) : response :=
  {| status_code := 200; json := Some (PDict [ (PStr "access_token", PStr token) ]) |}.

Definition plain_world (env : gmap string string) (send : request → result response)
  : world :=
  {| environ := env; send := send; stdin_line := None; tty_line := None;
     cwd := "/home/user"; can_open := λ _, true |}.

(** The controller is reached as 10.0.0.1 on the command line while the
    environment names 10.9.9.9. *)
Definition world_two_servers : world :=
  plain_world {[ "NSP_SERVER" := "10.9.9.9" ]}
    (scripted (Ok (token_response "T"))
              (Ok {| status_code := 200; json := Some (ietf_doc [] []) |})
              (Ok {| status_code := 200; json := None |})).

(** The topology GET is answered with status 500 and a JSON body. *)
Definition world_status_500 : world :=
  plain_world {[ "NSP_SERVER" := "10.0.0.1" ]}
    (scripted (Ok (token_response "T"))
              (Ok {| status_code := 500;
                     json := Some (PDict [ (PStr "error", PStr "internal") ]) |})
              (Ok {| status_code := 200; json := None |})).

(** The topology GET fails in the network after the token was issued. *)
Definition world_query_fails : world :=
  plain_world {[ "NSP_SERVER" := "10.0.0.1" ]}
    (scripted (Ok (token_response "T"))
              (Raise RequestException)
              (Ok {| status_code := 200; json := None |})).

(** The revocation is answered with status 503. *)
Definition world_revocation_refused : world :=
  plain_world {[ "NSP_SERVER" := "10.0.0.1" ]}
    (scripted (Ok (token_response "T"))
              (Ok {| status_code := 200; json := Some (ietf_doc [] []) |})
              (Ok {| status_code := 503; json := None |})).

(** The token endpoint answers 401 with a JSON object that has no
    [access_token]. *)
Definition world_wrong_password : world :=
  plain_world {[ "NSP_SERVER" := "10.0.0.1" ]}
    (scripted (Ok {| status_code := 401;
                     json := Some (PDict [ (PStr "error", PStr "unauthorized") ]) |})
              (Ok {| status_code := 200; json := Some (ietf_doc [] []) |})
              (Ok {| status_code := 200; json := None |})).

(** The proxy refuses the token request and PROXY_USER is not set. *)
Definition world_proxy_down : world :=
  plain_world {[ "NSP_SERVER" := "10.0.0.1" ]}
    (scripted (Raise ProxyError)
              (Ok {| status_code := 200; json := Some (ietf_doc [] []) |})
              (Ok {| status_code := 200; json := None |})).

(** [main] from its [try] statement on, the credentials and the proxies
    being known. *)
Definition session (w : world) (server username password : string)
    (output : option string) (proxies : list (string * string)) : IO unit :=
  token ← acquire w server username password proxies;
  bearer ← lift (str_concat "Bearer " token);
  let headers := [ ("Content-Type", "application/json"); ("Authorization", bearer) ] in
  nsp_server ← lift (environ_get w "NSP_SERVER");
  l2topo ← retrieveNspL2IetfTopo w nsp_server proxies headers;
  _ ← revokeToken w server username password token proxies;
  topology ← lift (generate_topology l2topo);
  write_yaml w (output_path w output) topology.

(** What is left of a run once the topology document is there: translate
    and write. *)
Definition translate_and_write (w : world) (output : option string) (l2topo : pyval)
  : result unit :=
  match generate_topology l2topo with
  | Ok _ => if can_open w (output_path w output) then Ok tt else Raise OSError
  | Raise e => Raise e
  end.

(** What [revokeToken] prints for a status code. *)
Definition revocation_report (code : Z) : event :=
  if code =? 200
  then Printed (Text "Succesfully revoked token.")
  else Printed (Text "Error after token revocation attempt.").

(** The file events of a run that reached the translation. *)
Definition file_events (w : world) (output : option string) (l2topo : pyval)
  : list event :=
  match generate_topology l2topo with
  | Ok topology =>
      if can_open w (output_path w output)
      then [Opened (output_path w output); Dumped (output_path w output) topology]
      else []
  | Raise _ => []
  end.

(** [s.endswith(suffix)], read from the end. *)
Definition ends_with (suffix s : string) : bool :=
  String.prefix (String.rev suffix) (String.rev s).

(** The requests sent to a revocation endpoint. *)
Definition is_revocation (r : request) : bool :=
  ends_with "/rest-gateway/rest/api/v1/auth/revocation" (req_url r).

Definition revocations_of (t : list event) : list request :=
  filter (λ r, is_revocation r = true) (requests_of t).

(** ** Reading base64 back *)

(** The place of a character in a string. *)
Fixpoint index_of (c : ascii) (s : string) : option N :=
  match s with
  | EmptyString => None
  | String c' s' => if Ascii.eqb c c' then Some 0%N else N.succ <$> index_of c s'
  end.

(** The bytes of four characters of base64, the last one or two of which
    may be padding. *)
Definition b64_quad (c1 c2 c3 c4 : ascii) : option (list N) :=
  i1 ← index_of c1 b64_alphabet;
  i2 ← index_of c2 b64_alphabet;
  if Ascii.eqb c3 "=" then Some [ ((i1 * 262144 + i2 * 4096) / 65536)%N ]
  else
    i3 ← index_of c3 b64_alphabet;
    if Ascii.eqb c4 "="
    then let n := (i1 * 262144 + i2 * 4096 + i3 * 64)%N in
         Some [ (n / 65536)%N; ((n / 256) mod 256)%N ]
    else
      i4 ← index_of c4 b64_alphabet;
      let n := (i1 * 262144 + i2 * 4096 + i3 * 64 + i4)%N in
      Some [ (n / 65536)%N; ((n / 256) mod 256)%N; (n mod 256)%N ].

(** The bytes a base64 text stands for: what [b64decode] gives on the
    texts [b64_bytes] makes.  It serves to show that encoding loses
    nothing. *)
Fixpoint b64_unbytes (s : string) : option (list N) :=
  match s with
  | EmptyString => Some []
  | String c1 (String c2 (String c3 (String c4 rest))) =>
      q ← b64_quad c1 c2 c3 c4;
      l ← b64_unbytes rest;
      Some (q ++ l)
  | _ => None
  end.

(** [c in s]. *)
Fixpoint has_char (c : ascii) (s : string) : bool :=
  match s with
  | EmptyString => false
  | String c' s' => Ascii.eqb c c' || has_char c s'
  end.

(** * Properties *)

(** ** Sanity checks of the model *)

Example translate_small :
  generate_topology
    (ietf_doc [ietf_node (PStr "1") (PStr "R1") (PList [PStr "10.0.0.1"; PStr "10.0.0.2"]);
               ietf_node (PStr "2") (PStr "R2") (PList [PStr "10.0.0.3"])]
              [ietf_link (PStr "R1--R2"); ietf_link (PStr "R1--x--R2"); ietf_link (PStr "R1")])
  = Ok (clab_topology
          [(PStr "R1", clab_node (PStr "10.0.0.1")); (PStr "R2", clab_node (PStr "10.0.0.3"))]
          [clab_link (PStr "R1") (PStr "R2"); clab_link (PStr "R1") (PStr "R2");
           clab_link (PStr "R1") (PStr "R1")]).
Proof. reflexivity. Qed.

Example b64_Man : b64encode "Man" = "TWFu" ∧ b64encode "Ma" = "TWE=" ∧ b64encode "M" = "TQ==".
Proof. by vm_compute. Qed.

Example basic_user_pass : getBasicAuthentication "user" "pass" = "dXNlcjpwYXNz".
Proof. by vm_compute. Qed.

(** ** Splitting on the delimiter *)

Example split_dd_cases :
  split_dd "A--B--C" = ["A"; "B"; "C"]
  ∧ split_dd "A---B" = ["A"; "-B"]
  ∧ split_dd "----" = [EmptyString; EmptyString; EmptyString]
  ∧ split_dd "A" = ["A"]
  ∧ split_dd EmptyString = [EmptyString].
Proof. by vm_compute. Qed.

Section split.

(** Induction that follows [split_dd] and [has_dd]: two characters at a
    time. *)
Lemma string_ind2 (P : string → Prop) :
  P EmptyString →
  (∀ c, P (String c EmptyString)) →
  (∀ c c' s, P s → P (String c' s) → P (String c (String c' s))) →
  ∀ s, P s.
Proof.
  intros H0 H1 H2 s.
  assert (P s ∧ ∀ c, P (String c s)) as [? _]; [|done].
  induction s as [|c' s [IH1 IH2]]; split; auto.
Qed.

Lemma is_dd_true c c' :
  Ascii.eqb c "-" && Ascii.eqb c' "-" = true → c = "-"%char ∧ c' = "-"%char.
Proof.
  intros [H1 H2]%andb_true_iff.
  by apply Ascii.eqb_eq in H1, H2.
Qed.

Lemma split_dd_step c c' s :
  split_dd (String c (String c' s)) =
  if Ascii.eqb c "-" && Ascii.eqb c' "-" then EmptyString :: split_dd s
  else push_char c (split_dd (String c' s)).
Proof. reflexivity. Qed.

Lemma has_dd_step c c' s :
  has_dd (String c (String c' s)) =
  (Ascii.eqb c "-" && Ascii.eqb c' "-") || has_dd (String c' s).
Proof. reflexivity. Qed.

Lemma split_dd_nonempty s : split_dd s ≠ [].
Proof.
  induction s as [|c|c c' s IH1 IH2] using string_ind2; [by cbn|by cbn|].
  rewrite split_dd_step. destruct (_ && _); [done|].
  unfold push_char. by destruct (split_dd (String c' s)).
Qed.

Lemma join_dd_cons seg segs :
  segs ≠ [] → join_dd (seg :: segs) = seg +:+ "--" +:+ join_dd segs.
Proof. by destruct segs. Qed.

Lemma join_dd_push c segs :
  segs ≠ [] → join_dd (push_char c segs) = String c (join_dd segs).
Proof. destruct segs as [|seg [|seg' segs]]; done. Qed.

(** Joining the segments with the delimiter gives the string back. *)
Lemma join_split_dd s : join_dd (split_dd s) = s.
Proof.
  induction s as [|c|c c' s IH1 IH2] using string_ind2; [by cbn|by cbn|].
  rewrite split_dd_step. destruct (Ascii.eqb c "-" && Ascii.eqb c' "-") eqn:E.
  - apply (is_dd_true c c') in E as [-> ->].
    rewrite join_dd_cons by apply split_dd_nonempty. by rewrite IH1.
  - rewrite join_dd_push by apply split_dd_nonempty. by rewrite IH2.
Qed.

(** Without the delimiter the string is its only segment. *)
Lemma split_dd_without s : has_dd s = false → split_dd s = [s].
Proof.
  induction s as [|c|c c' s IH1 IH2] using string_ind2; [by cbn|by cbn|].
  rewrite split_dd_step, has_dd_step. intros [E H]%orb_false_iff.
  rewrite E, IH2; done.
Qed.

(** With the delimiter there are at least two segments. *)
Lemma split_dd_with s :
  has_dd s = true → ∃ first mid last, split_dd s = first :: mid ++ [last].
Proof.
  induction s as [|c|c c' s IH1 IH2] using string_ind2; [by cbn|by cbn|].
  rewrite split_dd_step, has_dd_step. destruct (Ascii.eqb c "-" && Ascii.eqb c' "-") eqn:E.
  - intros _. pose proof (split_dd_nonempty s) as Hne.
    destruct (split_dd s) as [|x l _] using rev_ind; [done|].
    by exists EmptyString, l, x.
  - rewrite orb_false_l. intros (first & mid & last & ->)%IH2.
    by exists (String c first), mid, last.
Qed.

(** No segment holds the delimiter. *)
Lemma has_dd_push c seg :
  has_dd (String c seg) = true →
  has_dd seg = true ∨ (c = "-"%char ∧ ∃ seg', seg = String "-" seg').
Proof.
  destruct seg as [|c' seg']; [done|].
  rewrite has_dd_step.
  intros [[-> ->]%is_dd_true|H]%orb_true_iff; [right; eauto|by left].
Qed.

Lemma split_dd_head_prefix s seg segs c' seg' :
  split_dd s = seg :: segs → seg = String c' seg' → ∃ s', s = String c' s'.
Proof.
  destruct s as [|c [|c2 s]].
  - by intros [= <- <-].
  - intros [= <- <-] [= <- <-]. eauto.
  - rewrite split_dd_step. destruct (_ && _); [by intros [= <- <-]|].
    unfold push_char. destruct (split_dd _); intros [= <- <-] [= <- <-]; eauto.
Qed.

Lemma split_dd_segments s : Forall (λ seg, has_dd seg = false) (split_dd s).
Proof.
  induction s as [|c|c c' s IH1 IH2] using string_ind2.
  - by repeat constructor.
  - by repeat constructor.
  - rewrite split_dd_step. destruct (Ascii.eqb c "-" && Ascii.eqb c' "-") eqn:E.
    + by constructor.
    + destruct (split_dd (String c' s)) as [|seg segs] eqn:Es;
        [by repeat constructor|].
      apply Forall_cons in IH2 as [Hseg Hsegs]. cbn [push_char].
      constructor; [|done].
      destruct (has_dd (String c seg)) eqn:Hc; [|done].
      apply has_dd_push in Hc as [Hc|[-> [seg' ->]]]; [congruence|].
      destruct (split_dd_head_prefix _ _ _ _ _ Es eq_refl) as [s' [= -> ->]].
      done.
Qed.

Lemma has_dd_cons c s : has_dd s = true → has_dd (String c s) = true.
Proof.
  destruct s as [|c' s]; [done|].
  rewrite has_dd_step. intros ->. apply orb_true_r.
Qed.

(** [has_dd] decides the occurrence of the delimiter. *)
Lemma has_dd_spec s :
  has_dd s = true ↔ ∃ pre post, s = pre +:+ "--" +:+ post.
Proof.
  split.
  - induction s as [|c|c c' s IH1 IH2] using string_ind2; [by cbn|by cbn|].
    rewrite has_dd_step.
    intros [[-> ->]%is_dd_true|H]%orb_true_iff.
    + by exists EmptyString, s.
    + destruct (IH2 H) as (pre & post & ->). by exists (String c pre), post.
  - intros (pre & post & ->). induction pre as [|c pre IH].
    + done.
    + change (has_dd (String c (pre +:+ "--" +:+ post)) = true).
      by apply has_dd_cons.
Qed.

End split.

(** ** The result monad *)

Lemma bind_Ok {A B} (r : result A) (k : A → result B) b :
  r ≫= k = Ok b → ∃ a, r = Ok a ∧ k a = Ok b.
Proof. destruct r as [a|e]; [eauto|done]. Qed.

Ltac inv_bind H :=
  repeat match type of H with
         | _ ≫= _ = Ok _ =>
             let a := fresh "a" in
             let Ha := fresh "Ha" in
             apply bind_Ok in H as (a & Ha & H)
         end.

(** ** Indexing *)

Lemma seq_index_first {A} (l : list A) x : head l = Some x → seq_index l 0 = Ok x.
Proof.
  destruct l as [|y l]; [done|]. intros [= ->].
  unfold seq_index. cbn [length]. rewrite Nat2Z.inj_succ.
  assert ((0 <? 0) = false) as -> by done.
  assert ((0 <? 0) || (Z.succ (Z.of_nat (length l)) <=? 0) = false) as ->; [|done].
  apply orb_false_iff; split; [done|]. apply Z.leb_gt. lia.
Qed.

Lemma seq_index_last {A} (l : list A) x : last l = Some x → seq_index l (-1) = Ok x.
Proof.
  intros H. apply last_Some in H as [l' ->].
  unfold seq_index. rewrite length_app, Nat2Z.inj_add. cbn [length].
  assert ((-1 <? 0) = true) as -> by done.
  assert ((-1 + (Z.of_nat (length l') + Z.of_nat 1) <? 0)
          || (Z.of_nat (length l') + Z.of_nat 1
              <=? -1 + (Z.of_nat (length l') + Z.of_nat 1)) = false) as ->.
  { apply orb_false_iff; split; [apply Z.ltb_ge|apply Z.leb_gt]; lia. }
  replace (Z.to_nat (-1 + (Z.of_nat (length l') + Z.of_nat 1))) with (length l' + 0)%nat
    by lia.
  by rewrite lookup_app_r, Nat.add_comm, Nat.add_sub by lia.
Qed.

Lemma head_fmap {A B} (f : A → B) (l : list A) : head (f <$> l) = f <$> head l.
Proof. by destruct l. Qed.

(** ** Links *)

Lemma first_segment_head s : head (split_dd s) = Some (first_segment s).
Proof.
  unfold first_segment. pose proof (split_dd_nonempty s).
  by destruct (split_dd s).
Qed.

Lemma last_segment_last s : last (split_dd s) = Some (last_segment s).
Proof.
  unfold last_segment. pose proof (split_dd_nonempty s).
  destruct (split_dd s) as [|x l _] using rev_ind; [done|].
  by rewrite last_snoc.
Qed.

(** A link whose name is a str gives its first and last segments, whatever
    the name. *)
Lemma link_entry_str link s :
  link_name link = Ok (PStr s) →
  link_entry link = Ok (clab_link (PStr (first_segment s)) (PStr (last_segment s))).
Proof.
  unfold link_name, link_entry. intros H.
  destruct (getitem link link_attrs_key) as [attrs|e]; [|done].
  cbn in H |- *. rewrite H. cbn.
  rewrite (seq_index_first _ (PStr (first_segment s)))
    by (by rewrite head_fmap, first_segment_head). cbn.
  rewrite (seq_index_last _ (PStr (last_segment s)))
    by (by rewrite fmap_last, last_segment_last).
  done.
Qed.

(** The link loop appends one entry per link, in the order of the source. *)
Lemma for_each_link_step acc items links :
  for_each link_step acc items = Ok links →
  ∃ es, links = acc ++ es ∧ Forall2 (λ x e, link_entry x = Ok e) items es.
Proof.
  revert acc. induction items as [|x items IH]; intros acc.
  - intros [= <-]. exists []. split; [by rewrite app_nil_r|constructor].
  - cbn [for_each]. intros H. inv_bind H.
    unfold link_step in Ha. inv_bind Ha. injection Ha as <-.
    destruct (IH _ H) as (es & -> & HF).
    exists (a0 :: es). split; [by rewrite <- app_assoc|by constructor].
Qed.

Lemma generate_topology_Ok json_data topology :
  generate_topology json_data = Ok topology →
  ∃ node_items nodes link_items links,
    source_items json_data "node" = Ok node_items ∧
    for_each node_step [] node_items = Ok nodes ∧
    source_items json_data "ietf-network-topology:link" = Ok link_items ∧
    for_each link_step [] link_items = Ok links ∧
    topology = clab_topology nodes links.
Proof.
  unfold generate_topology. intros H. inv_bind H. injection H as <-.
  by exists a, a0, a1, a2.
Qed.

Lemma target_links_clab nodes links :
  target_links (clab_topology nodes links) = Ok (PList links).
Proof. reflexivity. Qed.

Lemma target_nodes_clab nodes links :
  target_nodes (clab_topology nodes links) = Ok (PDict nodes).
Proof. reflexivity. Qed.

(** The entry of the [i]-th source link is the [i]-th target link. *)
Lemma generate_topology_link json_data topology items i link e :
  generate_topology json_data = Ok topology →
  source_items json_data "ietf-network-topology:link" = Ok items →
  items !! i = Some link →
  link_entry link = Ok e →
  ∃ links, target_links topology = Ok (PList links) ∧ links !! i = Some e.
Proof.
  intros (? & nodes & items' & links & _ & _ & Hi & Hl & ->)%generate_topology_Ok
    Hitems Hlink He.
  rewrite Hitems in Hi. injection Hi as <-.
  exists links. split; [apply target_links_clab|].
  apply for_each_link_step in Hl as (es & -> & HF). cbn [app].
  destruct (Forall2_lookup_l _ _ _ _ _ HF Hlink) as (e' & -> & He').
  congruence.
Qed.

(** C2: for every link whose name contains the delimiter [--], the
    translation emits, without error, the pair of the first and the last
    segment of the name split on [--].  The segments are at least two,
    none of them holds the delimiter, and joined by it they give the name
    back; so ["A--B"] gives [["A", "B"]] and ["A--B--C"] gives
    [["A", "C"]].  The pair stands in the target at the place the link has
    in the source. *)
Theorem link_endpoints_with_delimiter link s :
  link_name link = Ok (PStr s) →
  has_dd s = true →
  link_entry link = Ok (clab_link (PStr (first_segment s)) (PStr (last_segment s)))
  ∧ (∃ mid, split_dd s = first_segment s :: mid ++ [last_segment s])
  ∧ join_dd (split_dd s) = s
  ∧ Forall (λ seg, has_dd seg = false) (split_dd s)
  ∧ ∀ json_data topology items (i : nat),
      generate_topology json_data = Ok topology →
      source_items json_data "ietf-network-topology:link" = Ok items →
      items !! i = Some link →
      ∃ links, target_links topology = Ok (PList links) ∧
        links !! i = Some (clab_link (PStr (first_segment s)) (PStr (last_segment s))).
Proof.
  intros Hname Hdd. pose proof (link_entry_str _ _ Hname) as He.
  split; [done|]. split; [|split; [apply join_split_dd|]].
  - destruct (split_dd_with s Hdd) as (first & mid & lst & Hs).
    exists mid. unfold first_segment, last_segment. rewrite Hs.
    by rewrite app_comm_cons, last_snoc.
  - split; [apply split_dd_segments|]. intros json_data topology items i Ht Hitems Hlink.
    by eapply generate_topology_link.
Qed.

Lemma link_endpoints_with_delimiter_witness :
  link_entry (ietf_link (PStr "A--B")) = Ok (clab_link (PStr "A") (PStr "B"))
  ∧ link_entry (ietf_link (PStr "A--B--C")) = Ok (clab_link (PStr "A") (PStr "C")).
Proof.
  split.
  - exact (proj1 (link_endpoints_with_delimiter
                    (ietf_link (PStr "A--B")) "A--B" eq_refl eq_refl)).
  - exact (proj1 (link_endpoints_with_delimiter
                    (ietf_link (PStr "A--B--C")) "A--B--C" eq_refl eq_refl)).
Defined.

(** C3, as the code has it: a link whose name holds no delimiter raises
    nothing; its name is both endpoints. *)
Theorem link_endpoints_without_delimiter link s :
  link_name link = Ok (PStr s) →
  has_dd s = false →
  link_entry link = Ok (clab_link (PStr s) (PStr s))
  ∧ ∀ json_data topology items (i : nat),
      generate_topology json_data = Ok topology →
      source_items json_data "ietf-network-topology:link" = Ok items →
      items !! i = Some link →
      ∃ links, target_links topology = Ok (PList links) ∧
        links !! i = Some (clab_link (PStr s) (PStr s)).
Proof.
  intros Hname Hdd. pose proof (link_entry_str _ _ Hname) as He.
  unfold first_segment, last_segment in He.
  rewrite (split_dd_without s Hdd) in He. cbn in He.
  split; [done|].
  intros json_data topology items i Ht Hitems Hlink.
  by eapply generate_topology_link.
Qed.

Lemma link_endpoints_without_delimiter_witness :
  link_entry (ietf_link (PStr "A")) = Ok (clab_link (PStr "A") (PStr "A")).
Proof.
  exact (proj1 (link_endpoints_without_delimiter
                  (ietf_link (PStr "A")) "A" eq_refl eq_refl)).
Defined.

(** C3 as stated fails: the name ["A"] holds no delimiter and the
    translation returns a document, with ["A"] as both endpoints. *)
Lemma link_without_delimiter_no_error :
  has_dd "A" = false
  ∧ generate_topology (ietf_doc [] [ietf_link (PStr "A")])
    = Ok (clab_topology [] [clab_link (PStr "A") (PStr "A")]).
Proof. split; reflexivity. Qed.

(** ** Dictionaries *)

Section dict.
Implicit Types (h : hkey) (k v : pyval) (d : list (pyval * pyval)).

Lemma same_key_true h k : same_key h k = true ↔ hashable k = Some h.
Proof. unfold same_key. by rewrite bool_decide_eq_true. Qed.

Lemma same_key_false h k : same_key h k = false ↔ hashable k ≠ Some h.
Proof. unfold same_key. by rewrite bool_decide_eq_false. Qed.

Lemma same_key_other h h' k : h' ≠ h → hashable k = Some h → same_key h' k = false.
Proof. intros Hne Hk. apply same_key_false. congruence. Qed.

(** A stored value is read back. *)
Lemma dict_lookup_store h k v d :
  hashable k = Some h → dict_lookup h (dict_store h k v d) = Some v.
Proof.
  intros Hk. induction d as [|[k' v'] d IH]; cbn.
  - by rewrite (proj2 (same_key_true h k) Hk).
  - destruct (same_key h k') eqn:E; cbn; by rewrite E.
Qed.

(** Storing under one key leaves the other keys alone. *)
Lemma dict_lookup_store_ne h h' k v d :
  h' ≠ h → hashable k = Some h →
  dict_lookup h' (dict_store h k v d) = dict_lookup h' d.
Proof.
  intros Hne Hk. induction d as [|[k' v'] d IH]; cbn.
  - by rewrite (same_key_other h h' k).
  - destruct (same_key h k') eqn:E; cbn.
    + apply same_key_true in E. by rewrite (same_key_other h h' k').
    + by rewrite IH.
Qed.

Lemma count_key_cons h k v d :
  count_key h ((k, v) :: d) =
  ((if same_key h k then 1 else 0) + count_key h d)%nat.
Proof.
  unfold count_key. rewrite filter_cons. cbn [fst].
  destruct (same_key h k); by case_decide.
Qed.

(** Storing adds an item only under a key that had none. *)
Lemma count_key_store h h' k v d :
  hashable k = Some h →
  count_key h' (dict_store h k v d) =
  if decide (h' = h) then Nat.max 1 (count_key h d) else count_key h' d.
Proof.
  intros Hk. induction d as [|[k' v'] d IH]; cbn [dict_store].
  - rewrite count_key_cons. case_decide as Hh.
    + subst. by rewrite (proj2 (same_key_true h k) Hk).
    + by rewrite (same_key_other h h' k).
  - destruct (same_key h k') eqn:E; rewrite !count_key_cons.
    + case_decide as Hh.
      * subst. rewrite E. lia.
      * apply same_key_true in E. by rewrite (same_key_other h h' k').
    + rewrite IH. case_decide as Hh; [|done].
      subst. rewrite E. lia.
Qed.

Lemma dict_lookup_count h d v : dict_lookup h d = Some v → (1 ≤ count_key h d)%nat.
Proof.
  induction d as [|[k' v'] d IH]; [done|].
  cbn [dict_lookup]. rewrite count_key_cons.
  destruct (same_key h k'); [lia|]. intros ?%IH. lia.
Qed.

Lemma unique_keys_nil : unique_keys [].
Proof. intros h. cbn. lia. Qed.

Lemma unique_keys_store h k v d :
  hashable k = Some h → unique_keys d → unique_keys (dict_store h k v d).
Proof.
  intros Hk Hd h'. rewrite (count_key_store h h') by done.
  case_decide; [|done]. specialize (Hd h). lia.
Qed.

Lemma unique_lookup_count h d v :
  unique_keys d → dict_lookup h d = Some v → count_key h d = 1%nat.
Proof. intros Hd Hv%dict_lookup_count. specialize (Hd h). lia. Qed.

End dict.

(** ** Nodes *)

Lemma node_step_Ok nodes node nodes' :
  node_step nodes node = Ok nodes' →
  ∃ n a h, node_entry node = Ok (n, a) ∧ hashable n = Some h ∧
    nodes' = dict_store h n a nodes.
Proof.
  unfold node_step, dict_setitem. intros H. inv_bind H. destruct a as [n a].
  cbn [fst snd] in H. destruct (hashable n) as [h|] eqn:Hn; [|done].
  injection H as <-. by exists n, a, h.
Qed.

(** Every node the loop has passed gave an entry with a hashable name. *)
Lemma for_each_node_step_entry nodes items nodes' (j : nat) node :
  for_each node_step nodes items = Ok nodes' →
  items !! j = Some node →
  ∃ n a h, node_entry node = Ok (n, a) ∧ hashable n = Some h.
Proof.
  revert nodes j. induction items as [|x items IH]; intros nodes j; [done|].
  cbn [for_each]. intros H Hj. inv_bind H.
  destruct j as [|j]; cbn in Hj.
  - injection Hj as ->. apply node_step_Ok in Ha as (n & e & h & ? & ? & _).
    by exists n, e, h.
  - by eapply IH.
Qed.

Lemma for_each_node_step_unique nodes items nodes' :
  for_each node_step nodes items = Ok nodes' → unique_keys nodes → unique_keys nodes'.
Proof.
  revert nodes. induction items as [|x items IH]; intros nodes.
  - by intros [= <-].
  - cbn [for_each]. intros H Hu. inv_bind H.
    apply node_step_Ok in Ha as (n & e & h & _ & Hn & ->).
    eapply IH; [done|]. by apply unique_keys_store.
Qed.

(** Nodes of other names leave the entry of a name alone. *)
Lemma for_each_node_step_other h nodes items nodes' :
  for_each node_step nodes items = Ok nodes' →
  not_after h 0 items →
  dict_lookup h nodes' = dict_lookup h nodes.
Proof.
  revert nodes. induction items as [|x items IH]; intros nodes.
  - by intros [= <-].
  - cbn [for_each]. intros H Hno. inv_bind H.
    apply node_step_Ok in Ha as (n & e & h' & He & Hn & ->).
    rewrite (IH _ H).
    + apply dict_lookup_store_ne; [|done].
      intros ->. by apply (Hno 0%nat x (n, e)); [lia|..].
    + intros k z e' _ Hk. apply (Hno (S k) z e'); [lia|done].
  Qed.

(** The last node of a name decides the entry under that name. *)
Lemma for_each_node_step_last h nodes items nodes' (j : nat) node n a :
  for_each node_step nodes items = Ok nodes' →
  items !! j = Some node →
  node_entry node = Ok (n, a) →
  hashable n = Some h →
  not_after h (S j) items →
  dict_lookup h nodes' = Some a.
Proof.
  revert nodes j. induction items as [|x items IH]; intros nodes j; [done|].
  cbn [for_each]. intros H Hj He Hn Hno. inv_bind H.
  destruct j as [|j]; cbn in Hj.
  - injection Hj as ->.
    apply node_step_Ok in Ha as (n' & e' & h' & He' & Hn' & ->).
    rewrite He in He'. injection He' as <- <-.
    rewrite Hn in Hn'. injection Hn' as <-.
    rewrite (for_each_node_step_other h _ _ _ H).
    + by apply dict_lookup_store.
    + intros k z e _ Hk. apply (Hno (S k) z e); [lia|done].
  - eapply IH; [done..|].
    intros k z e Hjk Hk. apply (Hno (S k) z e); [lia|done].
Qed.

Lemma getitem_dict d k h v :
  hashable k = Some h → dict_lookup h d = Some v → getitem (PDict d) k = Ok v.
Proof. intros Hk Hv. cbn. by rewrite Hk, Hv. Qed.

(** The node mapping of a translation: keys are unique, and the last node
    of each name has its entry there. *)
Lemma generate_topology_nodes json_data topology items :
  generate_topology json_data = Ok topology →
  source_items json_data "node" = Ok items →
  ∃ nodes,
    target_nodes topology = Ok (PDict nodes) ∧
    unique_keys nodes ∧
    ∀ (j : nat) node n a h,
      items !! j = Some node → node_entry node = Ok (n, a) →
      hashable n = Some h → not_after h (S j) items →
      dict_lookup h nodes = Some a.
Proof.
  intros (items' & nodes & ? & links & Hi & Hn & _ & _ & ->)%generate_topology_Ok
    Hitems.
  rewrite Hitems in Hi. injection Hi as <-.
  exists nodes. split; [apply target_nodes_clab|]. split.
  - eapply for_each_node_step_unique; [done|apply unique_keys_nil].
  - intros j node n a h. by eapply for_each_node_step_last.
Qed.

(** C7: when two source nodes derive the same display name, the target
    node mapping holds exactly one entry under that name, and it is the
    entry of the later node (of the last one, when more nodes share the
    name). *)
Theorem duplicate_name_last_wins json_data topology items (i j : nat)
    x y n1 a1 n2 a2 h :
  generate_topology json_data = Ok topology →
  source_items json_data "node" = Ok items →
  (i < j)%nat →
  items !! i = Some x → node_entry x = Ok (n1, a1) → hashable n1 = Some h →
  items !! j = Some y → node_entry y = Ok (n2, a2) → hashable n2 = Some h →
  not_after h (S j) items →
  ∃ nodes,
    target_nodes topology = Ok (PDict nodes) ∧
    count_key h nodes = 1%nat ∧
    getitem (PDict nodes) n1 = Ok a2 ∧
    getitem (PDict nodes) n2 = Ok a2.
Proof.
  intros Ht Hitems _ _ _ Hn1 Hy He2 Hn2 Hlast.
  destruct (generate_topology_nodes _ _ _ Ht Hitems) as (nodes & Hnodes & Hu & Hl).
  pose proof (Hl j y n2 a2 h Hy He2 Hn2 Hlast) as Hv.
  exists nodes. split; [done|]. split; [by eapply unique_lookup_count|].
  split; by eapply getitem_dict.
Qed.

Lemma duplicate_name_last_wins_witness :
  ∃ nodes,
    target_nodes
      (clab_topology [(PStr "R1", clab_node (PStr "10.0.0.2"))] []) = Ok (PDict nodes) ∧
    count_key (HStr "R1") nodes = 1%nat ∧
    getitem (PDict nodes) (PStr "R1") = Ok (clab_node (PStr "10.0.0.2")) ∧
    getitem (PDict nodes) (PStr "R1") = Ok (clab_node (PStr "10.0.0.2")).
Proof.
  eapply (duplicate_name_last_wins
            (ietf_doc [ietf_node (PStr "1") (PStr "R1") (PList [PStr "10.0.0.1"]);
                       ietf_node (PStr "2") (PStr "R1") (PList [PStr "10.0.0.2"])] [])
            _ _ 0%nat 1%nat).
  - reflexivity.
  - reflexivity.
  - lia.
  - reflexivity.
  - reflexivity.
  - reflexivity.
  - reflexivity.
  - reflexivity.
  - reflexivity.
  - intros [|[|k]] z e Hk Hz; [lia|lia|done].
Defined.

Example duplicate_name_document :
  generate_topology
    (ietf_doc [ietf_node (PStr "1") (PStr "R1") (PList [PStr "10.0.0.1"]);
               ietf_node (PStr "2") (PStr "R2") (PList [PStr "10.0.0.9"]);
               ietf_node (PStr "3") (PStr "R1") (PList [PStr "10.0.0.2"])] [])
  = Ok (clab_topology [(PStr "R1", clab_node (PStr "10.0.0.2"));
                       (PStr "R2", clab_node (PStr "10.0.0.9"))] []).
Proof. reflexivity. Qed.

(** A node whose attributes hold a name and a list of addresses gives the
    entry with the first address. *)
Lemma node_entry_first_address node node_id attrs name ip more :
  getitem node (PStr "node-id") = Ok node_id →
  getitem node node_attrs_key = Ok attrs →
  getitem attrs (PStr "name") = Ok name →
  getitem attrs (PStr "management-address") = Ok (PList (ip :: more)) →
  node_entry node = Ok (name, clab_node ip).
Proof.
  intros Hid Ha Hn Hm. unfold node_entry.
  rewrite Hid. cbn. rewrite Ha. cbn. rewrite Hn. cbn. rewrite Hm. cbn.
  by rewrite (seq_index_first (ip :: more) ip).
Qed.

(** C8: for every source node of a translated document, the entry made
    for it has as [mgmt-ipv4] the first element of the node's
    [management-address] list, whatever follows it; that entry is the one
    found under the node's name in the target, unless a later node of the
    same name has replaced it. *)
Theorem mgmt_ipv4_first_address json_data topology items (j : nat)
    node attrs name ip more :
  generate_topology json_data = Ok topology →
  source_items json_data "node" = Ok items →
  items !! j = Some node →
  getitem node node_attrs_key = Ok attrs →
  getitem attrs (PStr "name") = Ok name →
  getitem attrs (PStr "management-address") = Ok (PList (ip :: more)) →
  node_entry node = Ok (name, clab_node ip)
  ∧ getitem (clab_node ip) (PStr "mgmt-ipv4") = Ok ip
  ∧ ∃ h nodes,
      hashable name = Some h ∧
      target_nodes topology = Ok (PDict nodes) ∧
      (not_after h (S j) items →
       getitem (PDict nodes) name = Ok (clab_node ip)).
Proof.
  intros Ht Hitems Hj Ha Hn Hm.
  destruct (generate_topology_nodes _ _ _ Ht Hitems) as (nodes & Hnodes & _ & Hl).
  pose proof Ht as (items' & ? & _ & _ & Hi & Hf & _)%generate_topology_Ok.
  rewrite Hitems in Hi. injection Hi as <-.
  destruct (for_each_node_step_entry _ _ _ _ _ Hf Hj) as (n & a & h & He & Hh).
  assert (node_entry node = Ok (name, clab_node ip)) as He'.
  { unfold node_entry in He. apply bind_Ok in He as (node_id & Hid & _).
    by eapply node_entry_first_address. }
  rewrite He' in He. injection He as <- <-.
  split; [done|]. split; [done|].
  exists h, nodes. split; [done|]. split; [done|].
  intros Hlast. eapply getitem_dict; [done|]. by eapply Hl.
Qed.

Lemma mgmt_ipv4_first_address_witness :
  node_entry (ietf_node (PStr "1") (PStr "R1") (PList [PStr "10.0.0.1"; PStr "10.0.0.2"]))
  = Ok (PStr "R1", clab_node (PStr "10.0.0.1"))
  ∧ getitem (clab_node (PStr "10.0.0.1")) (PStr "mgmt-ipv4") = Ok (PStr "10.0.0.1").
Proof.
  pose proof (mgmt_ipv4_first_address
                (ietf_doc [ietf_node (PStr "1") (PStr "R1")
                             (PList [PStr "10.0.0.1"; PStr "10.0.0.2"])] [])
                (clab_topology [(PStr "R1", clab_node (PStr "10.0.0.1"))] [])
                [ietf_node (PStr "1") (PStr "R1")
                   (PList [PStr "10.0.0.1"; PStr "10.0.0.2"])]
                0%nat _ _ (PStr "R1") (PStr "10.0.0.1") [PStr "10.0.0.2"]
                eq_refl eq_refl eq_refl eq_refl eq_refl eq_refl) as (H1 & H2 & _).
  exact (conj H1 H2).
Defined.

(** C9: a document whose node collection and link collection are both
    empty translates, without error, to
    [{"topology": {"nodes": {}, "links": []}}]. *)
Theorem empty_collections json_data :
  source_items json_data "node" = Ok [] →
  source_items json_data "ietf-network-topology:link" = Ok [] →
  generate_topology json_data
  = Ok (PDict [ (PStr "topology",
                 PDict [ (PStr "nodes", PDict []); (PStr "links", PList []) ]) ]).
Proof.
  intros Hn Hl. unfold generate_topology. rewrite Hn. cbn. by rewrite Hl.
Qed.

Lemma empty_collections_witness :
  generate_topology (ietf_doc [] [])
  = Ok (PDict [ (PStr "topology",
                 PDict [ (PStr "nodes", PDict []); (PStr "links", PList []) ]) ]).
Proof. exact (empty_collections (ietf_doc [] []) eq_refl eq_refl). Defined.

(** ** Runs *)

Ltac io_unfold :=
  unfold http in *;
  unfold mbind, IO_bind, mret, IO_ret, emit, raise, lift in *.

Section runs.
Context (w : world).
Implicit Types (t : list event) (proxies : list (string * string)).

(** The start of [main]: the prompts, then the session. *)
Lemma main_session server username password output proxy u p t :
  resolved (stdin_line w) username = Some u →
  resolved (tty_line w) password = Some p →
  main w server username password output proxy t
  = session w server u p output (proxies_of proxy)
      (t ++ prompt_events username password).
Proof.
  unfold resolved, prompt_events, main. intros Hu Hp.
  fold (proxies_of proxy). fold (output_path w output).
  change (acquire w server ?a ?b (proxies_of proxy) ≫= ?k)
    with (session w server a b output (proxies_of proxy)).
  destruct (truthy username) eqn:Eu, (truthy password) eqn:Ep;
    destruct username as [u0|], password as [p0|]; try done;
    simplify_eq; unfold get_username, getpass; io_unfold;
    rewrite ?Hu, ?Hp; cbn [app]; rewrite ?app_nil_r, <- ?app_assoc; done.
Qed.

(** The three network calls. *)
Lemma getToken_run server u p proxies t :
  getToken w server u p proxies t
  = (send w (token_request server u p proxies) ≫= response_json,
     t ++ [Sent (token_request server u p proxies)]).
Proof.
  unfold getToken. io_unfold.
  by destruct (send w (token_request server u p proxies)).
Qed.

Lemma retrieveNspL2IetfTopo_run nsp_server proxies headers t :
  retrieveNspL2IetfTopo w nsp_server proxies headers t
  = (send w (topology_request nsp_server proxies headers) ≫= response_json,
     t ++ [Sent (topology_request nsp_server proxies headers)]).
Proof.
  unfold retrieveNspL2IetfTopo. io_unfold.
  by destruct (send w (topology_request nsp_server proxies headers)).
Qed.

Lemma revokeToken_run server u p token proxies t :
  let r := revocation_request server u p
             ("token=" +:+ token +:+ "&token_type_hint=token") proxies in
  revokeToken w server u p (PStr token) proxies t
  = match send w r with
    | Ok revToken => (Ok tt, t ++ [Sent r; revocation_report (status_code revToken)])
    | Raise e => (Raise e, t ++ [Sent r])
    end.
Proof.
  intros r. unfold revokeToken. io_unfold. cbn [str_concat].
  change (revocation_request server u p _ proxies) with r.
  destruct (send w r) as [revToken|e]; [|done].
  unfold revocation_report.
  destruct (status_code revToken =? 200); by rewrite <- app_assoc.
Qed.

(** The three ways out of the [try] block that the claims speak of. *)
Lemma acquire_token server u p proxies t resp body token :
  send w (token_request server u p proxies) = Ok resp →
  json resp = Some body →
  getitem body (PStr "access_token") = Ok token →
  acquire w server u p proxies t
  = (Ok token, t ++ [Sent (token_request server u p proxies)]).
Proof.
  intros Hs Hj Hg. unfold acquire. rewrite getToken_run, Hs. cbn.
  unfold response_json. by rewrite Hj, Hg.
Qed.

Lemma acquire_no_access_token server u p proxies t resp d :
  send w (token_request server u p proxies) = Ok resp →
  json resp = Some (PDict d) →
  dict_lookup (HStr "access_token") d = None →
  acquire w server u p proxies t
  = (Raise (SystemExit 0),
     t ++ [Sent (token_request server u p proxies);
           Printed (TokenKeyError (KeyError (PStr "access_token")) (PDict d))]).
Proof.
  intros Hs Hj Hd. unfold acquire. rewrite getToken_run, Hs. cbn.
  unfold response_json. rewrite Hj. cbn. rewrite Hd. cbn.
  io_unfold. by rewrite <- app_assoc.
Qed.

Lemma acquire_proxy_error server u p proxies t :
  send w (token_request server u p proxies) = Raise ProxyError →
  environ w !! "PROXY_USER" = None →
  acquire w server u p proxies t
  = (Raise (KeyError (PStr "PROXY_USER")),
     t ++ [Sent (token_request server u p proxies)]).
Proof.
  intros Hs He. unfold acquire. rewrite getToken_run, Hs. cbn.
  unfold environ_get. io_unfold. by rewrite He.
Qed.

Lemma session_no_token server u p output proxies t e t' :
  acquire w server u p proxies t = (Raise e, t') →
  session w server u p output proxies t = (Raise e, t').
Proof. intros H. unfold session. io_unfold. by rewrite H. Qed.

(** A session that has its token: a query that raises ends the run with
    no revocation sent; after a query that is answered the revocation is
    sent, and only an exception of that call keeps the run from going
    on. *)
Lemma session_with_token server u p output proxies t resp body token nsp_server :
  let r1 := token_request server u p proxies in
  let r2 := topology_request nsp_server proxies (bearer_headers token) in
  let r3 := revocation_request server u p
              ("token=" +:+ token +:+ "&token_type_hint=token") proxies in
  send w r1 = Ok resp →
  json resp = Some body →
  getitem body (PStr "access_token") = Ok (PStr token) →
  environ w !! "NSP_SERVER" = Some nsp_server →
  session w server u p output proxies t
  = match send w r2 ≫= response_json with
    | Raise e => (Raise e, t ++ [Sent r1; Sent r2])
    | Ok l2topo =>
        match send w r3 with
        | Raise e => (Raise e, t ++ [Sent r1; Sent r2; Sent r3])
        | Ok revToken =>
            (translate_and_write w output l2topo,
             t ++ [Sent r1; Sent r2; Sent r3; revocation_report (status_code revToken)]
               ++ file_events w output l2topo)
        end
    end.
Proof.
  intros r1 r2 r3 H1 Hj Hg Henv. unfold session.
  unfold mbind at 1, IO_bind at 1.
  rewrite (acquire_token _ _ _ _ _ _ _ _ H1 Hj Hg).
  unfold mbind at 1, IO_bind at 1, lift at 1. cbn [str_concat].
  unfold mbind at 1, IO_bind at 1, lift at 1, environ_get. rewrite Henv.
  unfold mbind at 1, IO_bind at 1.
  rewrite retrieveNspL2IetfTopo_run.
  change (topology_request nsp_server proxies _) with r2.
  fold r1. rewrite <- app_assoc. cbn [app].
  destruct (send w r2 ≫= response_json) as [l2topo|e]; [|done].
  unfold mbind at 1, IO_bind at 1.
  rewrite revokeToken_run. cbv zeta. change (revocation_request _ _ _ _ _) with r3.
  destruct (send w r3) as [revToken|e]; [|by rewrite <- app_assoc].
  unfold translate_and_write, file_events, write_yaml. io_unfold.
  destruct (generate_topology l2topo) as [topology|e];
    [destruct (can_open w (output_path w output))|];
    rewrite <- ?app_assoc; cbn [app]; by rewrite ?app_nil_r.
Qed.

End runs.

(** ** Reading traces *)

Lemma append_cons c (a b : string) : String c a +:+ b = String c (a +:+ b).
Proof. reflexivity. Qed.

Lemma append_assoc (a b c : string) : (a +:+ b) +:+ c = a +:+ b +:+ c.
Proof. induction a as [|x a IH]; [done|]. by rewrite !append_cons, IH. Qed.

Lemma rev_app_acc s acc : String.rev_app s acc = String.rev_app s EmptyString +:+ acc.
Proof.
  revert acc. induction s as [|c s IH]; intros acc; [done|].
  cbn. rewrite (IH (String c acc)), (IH (String c EmptyString)).
  by rewrite append_assoc.
Qed.

Lemma rev_append a b : String.rev (a +:+ b) = String.rev b +:+ String.rev a.
Proof.
  unfold String.rev. generalize EmptyString at 1 3 as acc.
  induction a as [|c a IH]; intros acc; cbn.
  - apply rev_app_acc.
  - apply IH.
Qed.

Lemma prefix_append p s : String.prefix p (p +:+ s) = true.
Proof.
  induction p as [|c p IH]; [by destruct s|].
  rewrite append_cons. cbn. by destruct (ascii_dec c c).
Qed.

Lemma token_request_not_revocation server u p proxies :
  is_revocation (token_request server u p proxies) = false.
Proof.
  unfold is_revocation, ends_with. cbn [req_url token_request].
  by rewrite !rev_append.
Qed.

Lemma topology_request_not_revocation nsp_server proxies headers :
  is_revocation (topology_request nsp_server proxies headers) = false.
Proof.
  unfold is_revocation, ends_with. cbn [req_url topology_request].
  by rewrite !rev_append.
Qed.

Lemma revocation_request_is_revocation server u p body proxies :
  is_revocation (revocation_request server u p body proxies) = true.
Proof.
  unfold is_revocation, ends_with. cbn [req_url revocation_request].
  rewrite !rev_append, append_assoc. apply prefix_append.
Qed.

Lemma requests_of_app t t' : requests_of (t ++ t') = requests_of t ++ requests_of t'.
Proof. apply omap_app. Qed.

Lemma files_of_app t t' : files_of (t ++ t') = files_of t ++ files_of t'.
Proof. apply omap_app. Qed.

Lemma requests_of_prompts username password :
  requests_of (prompt_events username password) = [].
Proof. unfold prompt_events. by destruct (truthy username), (truthy password). Qed.

Lemma files_of_prompts username password :
  files_of (prompt_events username password) = [].
Proof. unfold prompt_events. by destruct (truthy username), (truthy password). Qed.

Lemma requests_of_files w output l2topo : requests_of (file_events w output l2topo) = [].
Proof.
  unfold file_events. destruct (generate_topology l2topo); [|done].
  by destruct (can_open w (output_path w output)).
Qed.

Lemma requests_of_report code : requests_of [revocation_report code] = [].
Proof. unfold revocation_report. by destruct (code =? 200). Qed.

(** ** The session claims *)

(** C1 fails on the code: [main] takes the server of the topology query
    from the environment.  Started for 10.0.0.1 with NSP_SERVER set to
    10.9.9.9, it gets the token from 10.0.0.1, sends that token to 10.9.9.9,
    and revokes it at 10.0.0.1. *)
Lemma topology_query_goes_to_environment_server :
  run world_two_servers "10.0.0.1" (Some "admin") (Some "secret") None None
  = (Ok tt,
     [ Sent (token_request "10.0.0.1" "admin" "secret" []);
       Sent (topology_request "10.9.9.9" [] (bearer_headers "T"));
       Sent (revocation_request "10.0.0.1" "admin" "secret"
               "token=T&token_type_hint=token" []);
       Printed (Text "Succesfully revoked token.");
       Opened "/home/user/data.clab.yaml";
       Dumped "/home/user/data.clab.yaml" (clab_topology [] []) ])
  ∧ req_url (topology_request "10.9.9.9" [] (bearer_headers "T"))
    = "https://10.9.9.9/restconf/data/ietf-network:networks/network=L2Topology"
  ∧ req_url (token_request "10.0.0.1" "admin" "secret" [])
    = "https://10.0.0.1/rest-gateway/rest/api/v1/auth/token".
Proof. by vm_compute. Qed.

(** C4 as stated fails: a topology GET answered with status 500 and a JSON
    body returns that body as the document. *)
Lemma query_status_500_returns_body :
  send world_status_500 (topology_request "10.0.0.1" [] (bearer_headers "T"))
  = Ok {| status_code := 500; json := Some (PDict [ (PStr "error", PStr "internal") ]) |}
  ∧ retrieveNspL2IetfTopo world_status_500 "10.0.0.1" [] (bearer_headers "T") []
    = (Ok (PDict [ (PStr "error", PStr "internal") ]),
       [ Sent (topology_request "10.0.0.1" [] (bearer_headers "T")) ]).
Proof. by vm_compute. Qed.

(** C4, as the code has it: whatever the status code of the response to
    the topology GET, the query returns the parsed JSON body, and raises
    the decode error when the body is not JSON; the status code is not
    read. *)
Theorem query_returns_body_whatever_status w nsp_server proxies headers t l2topo :
  send w (topology_request nsp_server proxies headers) = Ok l2topo →
  retrieveNspL2IetfTopo w nsp_server proxies headers t
  = (match json l2topo with
     | Some body => Ok body
     | None => Raise JSONDecodeError
     end,
     t ++ [Sent (topology_request nsp_server proxies headers)]).
Proof. intros H. by rewrite retrieveNspL2IetfTopo_run, H. Qed.

Lemma query_returns_body_whatever_status_witness :
  retrieveNspL2IetfTopo world_status_500 "10.0.0.1" [] (bearer_headers "T") []
  = (Ok (PDict [ (PStr "error", PStr "internal") ]),
     [ Sent (topology_request "10.0.0.1" [] (bearer_headers "T")) ]).
Proof.
  exact (query_returns_body_whatever_status world_status_500 "10.0.0.1" []
           (bearer_headers "T") [] _ eq_refl).
Defined.

(** C5 as stated fails: the token is issued, the topology query fails in
    the network, and the run ends on that exception with no revocation
    sent. *)
Lemma no_revocation_when_query_fails :
  run world_query_fails "10.0.0.1" (Some "admin") (Some "secret") None None
  = (Raise RequestException,
     [ Sent (token_request "10.0.0.1" "admin" "secret" []);
       Sent (topology_request "10.0.0.1" [] (bearer_headers "T")) ])
  ∧ revocations_of
      (run world_query_fails "10.0.0.1" (Some "admin") (Some "secret") None None).2
    = [].
Proof. by vm_compute. Qed.

(** C5, as the code has it: in a run that has acquired its token, a
    topology query that returns a document is followed by exactly one
    revocation request, and when that request is answered its status code
    only chooses the text printed: the run goes on to the translation and
    the write, and their result is the result of the run.  A topology
    query that raises ends the run on its exception, and no revocation is
    sent. *)
Theorem revocation_follows_answered_query w server username password output proxy
    u p resp body token nsp_server :
  let proxies := proxies_of proxy in
  let r1 := token_request server u p proxies in
  let r2 := topology_request nsp_server proxies (bearer_headers token) in
  let r3 := revocation_request server u p
              ("token=" +:+ token +:+ "&token_type_hint=token") proxies in
  resolved (stdin_line w) username = Some u →
  resolved (tty_line w) password = Some p →
  send w r1 = Ok resp →
  json resp = Some body →
  getitem body (PStr "access_token") = Ok (PStr token) →
  environ w !! "NSP_SERVER" = Some nsp_server →
  (∀ l2topo,
     send w r2 ≫= response_json = Ok l2topo →
     revocations_of (run w server username password output proxy).2 = [r3]
     ∧ ∀ revToken,
         send w r3 = Ok revToken →
         run w server username password output proxy
         = (translate_and_write w output l2topo,
            prompt_events username password
            ++ [Sent r1; Sent r2; Sent r3; revocation_report (status_code revToken)]
            ++ file_events w output l2topo))
  ∧ (∀ e,
       send w r2 ≫= response_json = Raise e →
       run w server username password output proxy
       = (Raise e, prompt_events username password ++ [Sent r1; Sent r2])
       ∧ revocations_of (run w server username password output proxy).2 = []).
Proof.
  intros proxies r1 r2 r3 Hu Hp H1 Hj Hg Henv.
  pose proof (session_with_token w server u p output proxies
                (prompt_events username password) resp body token nsp_server
                H1 Hj Hg Henv) as Hs.
  cbv zeta in Hs. fold r1 r2 r3 in Hs.
  unfold run. rewrite (main_session w _ _ _ _ _ u p) by done.
  cbn [app]. fold proxies. rewrite Hs. clear Hs.
  assert (∀ t', requests_of t' = [] →
            revocations_of (prompt_events username password
                            ++ [Sent r1; Sent r2; Sent r3] ++ t') = [r3]) as Hrev.
  { intros t' Ht'. unfold revocations_of.
    rewrite !requests_of_app, requests_of_prompts, Ht'.
    cbn [app requests_of omap list_omap].
    rewrite !filter_cons, filter_nil. unfold r1, r2, r3.
    rewrite token_request_not_revocation, topology_request_not_revocation,
      revocation_request_is_revocation.
    by repeat case_decide. }
  split.
  - intros l2topo ->. split.
    + destruct (send w r3) as [revToken|e]; cbn [snd].
      * apply (Hrev (revocation_report (status_code revToken)
                     :: file_events w output l2topo)).
        change (requests_of ([revocation_report (status_code revToken)]
                             ++ file_events w output l2topo) = []).
        by rewrite requests_of_app, requests_of_report, requests_of_files.
      * by apply (Hrev []).
    + by intros revToken ->.
  - intros e ->. split; [done|]. cbn [snd]. unfold revocations_of.
    rewrite !requests_of_app, requests_of_prompts.
    cbn [app requests_of omap list_omap].
    rewrite !filter_cons, filter_nil. unfold r1, r2.
    rewrite token_request_not_revocation, topology_request_not_revocation.
    by repeat case_decide.
Qed.

Lemma revocation_follows_answered_query_witness :
  revocations_of
    (run world_revocation_refused "10.0.0.1" (Some "admin") (Some "secret") None None).2
  = [ revocation_request "10.0.0.1" "admin" "secret" "token=T&token_type_hint=token" [] ]
  ∧ run world_revocation_refused "10.0.0.1" (Some "admin") (Some "secret") None None
    = (Ok tt,
       [ Sent (token_request "10.0.0.1" "admin" "secret" []);
         Sent (topology_request "10.0.0.1" [] (bearer_headers "T"));
         Sent (revocation_request "10.0.0.1" "admin" "secret"
                 "token=T&token_type_hint=token" []);
         Printed (Text "Error after token revocation attempt.");
         Opened "/home/user/data.clab.yaml";
         Dumped "/home/user/data.clab.yaml" (clab_topology [] []) ]).
Proof.
  pose proof (revocation_follows_answered_query world_revocation_refused
                "10.0.0.1" (Some "admin") (Some "secret") None None
                "admin" "secret" (token_response "T")
                (PDict [ (PStr "access_token", PStr "T") ]) "T" "10.0.0.1"
                eq_refl eq_refl eq_refl eq_refl eq_refl eq_refl) as [H _].
  destruct (H (ietf_doc [] []) eq_refl) as [H1 H2].
  exact (conj H1 (H2 {| status_code := 503; json := None |} eq_refl)).
Defined.

(** C6: when the answer of the token endpoint is a JSON object with no
    [access_token], the run ends by [sys.exit(0)]: the token request is the
    only request sent, no file is opened, and the exit status is 0. *)
Theorem no_access_token_exits_zero w server username password output proxy
    u p resp d :
  resolved (stdin_line w) username = Some u →
  resolved (tty_line w) password = Some p →
  send w (token_request server u p (proxies_of proxy)) = Ok resp →
  json resp = Some (PDict d) →
  dict_lookup (HStr "access_token") d = None →
  run w server username password output proxy
  = (Raise (SystemExit 0),
     prompt_events username password
     ++ [ Sent (token_request server u p (proxies_of proxy));
          Printed (TokenKeyError (KeyError (PStr "access_token")) (PDict d)) ])
  ∧ exit_status (run w server username password output proxy).1 = 0
  ∧ requests_of (run w server username password output proxy).2
    = [ token_request server u p (proxies_of proxy) ]
  ∧ files_of (run w server username password output proxy).2 = [].
Proof.
  intros Hu Hp Hs Hj Hd.
  assert (run w server username password output proxy
          = (Raise (SystemExit 0),
             prompt_events username password
             ++ [ Sent (token_request server u p (proxies_of proxy));
                  Printed (TokenKeyError (KeyError (PStr "access_token")) (PDict d)) ]))
    as Hrun.
  { unfold run. rewrite (main_session w _ _ _ _ _ u p) by done.
    apply session_no_token. by erewrite acquire_no_access_token. }
  split; [done|]. rewrite Hrun. cbn [fst snd].
  rewrite requests_of_app, files_of_app, requests_of_prompts, files_of_prompts.
  done.
Qed.

Lemma no_access_token_exits_zero_witness :
  run world_wrong_password "10.0.0.1" (Some "admin") (Some "secret") None None
  = (Raise (SystemExit 0),
     [ Sent (token_request "10.0.0.1" "admin" "secret" []);
       Printed (TokenKeyError (KeyError (PStr "access_token"))
                  (PDict [ (PStr "error", PStr "unauthorized") ])) ])
  ∧ exit_status
      (run world_wrong_password "10.0.0.1" (Some "admin") (Some "secret") None None).1 = 0
  ∧ requests_of
      (run world_wrong_password "10.0.0.1" (Some "admin") (Some "secret") None None).2
    = [ token_request "10.0.0.1" "admin" "secret" [] ]
  ∧ files_of
      (run world_wrong_password "10.0.0.1" (Some "admin") (Some "secret") None None).2
    = [].
Proof.
  exact (no_access_token_exits_zero world_wrong_password
           "10.0.0.1" (Some "admin") (Some "secret") None None "admin" "secret"
           {| status_code := 401;
              json := Some (PDict [ (PStr "error", PStr "unauthorized") ]) |}
           [ (PStr "error", PStr "unauthorized") ]
           eq_refl eq_refl eq_refl eq_refl eq_refl).
Defined.

(** C10: when the token request raises a proxy error and PROXY_USER is
    not in the environment, the handler raises [KeyError] while it builds
    its message: nothing is printed, [sys.exit] is not reached, and the
    process ends on the uncaught exception. *)
Theorem proxy_handler_raises_KeyError w server username password output proxy u p :
  resolved (stdin_line w) username = Some u →
  resolved (tty_line w) password = Some p →
  send w (token_request server u p (proxies_of proxy)) = Raise ProxyError →
  environ w !! "PROXY_USER" = None →
  run w server username password output proxy
  = (Raise (KeyError (PStr "PROXY_USER")),
     prompt_events username password
     ++ [ Sent (token_request server u p (proxies_of proxy)) ])
  ∧ exit_status (run w server username password output proxy).1 = 1
  ∧ ∀ code, (run w server username password output proxy).1 ≠ Raise (SystemExit code).
Proof.
  intros Hu Hp Hs He.
  assert (run w server username password output proxy
          = (Raise (KeyError (PStr "PROXY_USER")),
             prompt_events username password
             ++ [ Sent (token_request server u p (proxies_of proxy)) ])) as Hrun.
  { unfold run. rewrite (main_session w _ _ _ _ _ u p) by done.
    apply session_no_token. by apply acquire_proxy_error. }
  split; [done|]. by rewrite Hrun.
Qed.

Lemma proxy_handler_raises_KeyError_witness :
  run world_proxy_down "10.0.0.1" (Some "admin") (Some "secret") None (Some "proxy:3128")
  = (Raise (KeyError (PStr "PROXY_USER")),
     [ Sent (token_request "10.0.0.1" "admin" "secret"
               [ ("https", "http://proxy:3128") ]) ])
  ∧ exit_status
      (run world_proxy_down "10.0.0.1" (Some "admin") (Some "secret") None
         (Some "proxy:3128")).1 = 1.
Proof.
  pose proof (proxy_handler_raises_KeyError world_proxy_down
                "10.0.0.1" (Some "admin") (Some "secret") None (Some "proxy:3128")
                "admin" "secret" eq_refl eq_refl eq_refl eq_refl) as (H1 & H2 & _).
  exact (conj H1 H2).
Defined.

(** * More properties of the code *)

(** ** More on the translation *)

(** A loop over [pre ++ x :: post] is the loop over [pre], the body on
    [x], and the loop over [post]. *)
Lemma for_each_app {S} (body : S → pyval → result S) s pre items :
  for_each body s (pre ++ items) = for_each body s pre ≫= λ s', for_each body s' items.
Proof.
  revert s. induction pre as [|x pre IH]; intros s; [done|].
  cbn [app for_each]. destruct (body s x) as [s'|e]; [apply IH|done].
Qed.

Lemma for_each_raise {S} (body : S → pyval → result S) s pre x post s' e :
  for_each body s pre = Ok s' →
  body s' x = Raise e →
  for_each body s (pre ++ x :: post) = Raise e.
Proof. intros Hpre Hx. rewrite for_each_app, Hpre. cbn. by rewrite Hx. Qed.

Lemma node_entry_clab node n a : node_entry node = Ok (n, a) → ∃ ip, a = clab_node ip.
Proof.
  unfold node_entry. intros H. inv_bind H. injection H as <- <-. eauto.
Qed.

Lemma dict_store_elem h n a d k v :
  (k, v) ∈ dict_store h n a d →
  (k, v) ∈ d ∨ (v = a ∧ (k = n ∨ hashable k = Some h)).
Proof.
  induction d as [|[k' v'] d IH]; cbn [dict_store].
  - intros [= -> ->]%list_elem_of_singleton. right. eauto.
  - destruct (same_key h k') eqn:E.
    + intros [[= -> ->]|Hin]%elem_of_cons.
      * right. split; [done|]. right. by apply same_key_true.
      * left. by right.
    + intros [[= -> ->]|Hin]%elem_of_cons; [left; by left|].
      destruct (IH Hin) as [?|?]; [left; by right|by right].
Qed.

Lemma dict_store_length h n a d : (length (dict_store h n a d) ≤ S (length d))%nat.
Proof.
  induction d as [|[k' v'] d IH]; cbn [dict_store]; [done|].
  destruct (same_key h k'); cbn [length]; lia.
Qed.

(** What the node loop leaves in the dict: what was there, and entries of
    the nodes it went over, each under a key equal to its node's name. *)
Lemma for_each_node_step_elem nodes items nodes' k v :
  for_each node_step nodes items = Ok nodes' →
  (k, v) ∈ nodes' →
  (k, v) ∈ nodes
  ∨ ∃ node n h, node ∈ items ∧ node_entry node = Ok (n, v) ∧
      hashable n = Some h ∧ hashable k = Some h.
Proof.
  revert nodes. induction items as [|x items IH]; intros nodes.
  - intros [= <-] Hin. by left.
  - cbn [for_each]. intros H Hin. inv_bind H.
    apply node_step_Ok in Ha as (n & e & h & He & Hn & ->).
    destruct (IH _ H Hin) as [Hv|(node & n' & h' & Hnode & He' & Hn' & Hk)].
    + apply dict_store_elem in Hv as [Hv|[-> Hk]]; [by left|].
      right. exists x, n, h. split; [by left|]. split; [done|]. split; [done|].
      by destruct Hk as [->|Hk].
    + right. exists node, n', h'. split; [by right|done].
Qed.

Lemma for_each_node_step_length nodes items nodes' :
  for_each node_step nodes items = Ok nodes' →
  (length nodes' ≤ length nodes + length items)%nat.
Proof.
  revert nodes. induction items as [|x items IH]; intros nodes.
  - intros [= <-]. lia.
  - cbn [for_each]. intros H. inv_bind H.
    apply node_step_Ok in Ha as (n & e & h & _ & _ & ->).
    apply IH in H. pose proof (dict_store_length h n e nodes). cbn [length]. lia.
Qed.

(** A name that has an entry keeps one through the loop, and every node
    of the loop gets one. *)
Lemma dict_lookup_store_some h h' n a d :
  hashable n = Some h →
  is_Some (dict_lookup h' d) → is_Some (dict_lookup h' (dict_store h n a d)).
Proof.
  intros Hn Hd. destruct (decide (h' = h)) as [->|Hne].
  - rewrite dict_lookup_store by done. eauto.
  - by rewrite dict_lookup_store_ne.
Qed.

Lemma for_each_node_step_keeps h nodes items nodes' :
  for_each node_step nodes items = Ok nodes' →
  is_Some (dict_lookup h nodes) → is_Some (dict_lookup h nodes').
Proof.
  revert nodes. induction items as [|x items IH]; intros nodes.
  - by intros [= <-].
  - cbn [for_each]. intros H Hd. inv_bind H.
    apply node_step_Ok in Ha as (n & e & h' & _ & Hn & ->).
    apply (IH _ H). by apply dict_lookup_store_some.
Qed.

Lemma for_each_node_step_present nodes items nodes' node :
  for_each node_step nodes items = Ok nodes' →
  node ∈ items →
  ∃ n a h, node_entry node = Ok (n, a) ∧ hashable n = Some h ∧
    is_Some (dict_lookup h nodes').
Proof.
  revert nodes. induction items as [|x items IH]; intros nodes; [by intros _ ?%elem_of_nil|].
  cbn [for_each]. intros H Hin. inv_bind H.
  apply elem_of_cons in Hin as [->|Hin]; [|by eapply IH].
  apply node_step_Ok in Ha as (n & e & h & He & Hn & ->).
  exists n, e, h. split; [done|]. split; [done|].
  apply (for_each_node_step_keeps _ _ _ _ H). rewrite dict_lookup_store by done. eauto.
Qed.

(** X1: the target links are the entries of the source links, one for
    one and in the order of the source: nothing is merged, dropped or
    checked against the nodes. *)
Theorem links_one_for_one json_data topology items :
  generate_topology json_data = Ok topology →
  source_items json_data "ietf-network-topology:link" = Ok items →
  ∃ links,
    target_links topology = Ok (PList links) ∧
    length links = length items ∧
    Forall2 (λ link e, link_entry link = Ok e) items links.
Proof.
  intros (? & nodes & items' & links & _ & _ & Hi & Hl & ->)%generate_topology_Ok
    Hitems.
  rewrite Hitems in Hi. injection Hi as <-.
  apply for_each_link_step in Hl as (es & -> & HF). cbn [app].
  exists es. split; [apply target_links_clab|]. split; [|done].
  symmetry. by eapply Forall2_length.
Qed.

Lemma links_one_for_one_witness :
  ∃ links,
    target_links
      (clab_topology [] [clab_link (PStr "X") (PStr "Y"); clab_link (PStr "X") (PStr "Y")])
    = Ok (PList links) ∧
    length links = length [ietf_link (PStr "X--Y"); ietf_link (PStr "X--Y")] ∧
    Forall2 (λ link e, link_entry link = Ok e)
      [ietf_link (PStr "X--Y"); ietf_link (PStr "X--Y")] links.
Proof.
  exact (links_one_for_one
           (ietf_doc [] [ietf_link (PStr "X--Y"); ietf_link (PStr "X--Y")])
           _ _ eq_refl eq_refl).
Defined.

(** X2: every entry of the target node mapping is the entry of a source
    node of an equal name, with the fixed kind and image and an address
    taken from that node; no two entries have equal keys, and there are
    no more entries than source nodes. *)
Theorem target_nodes_from_source json_data topology items :
  generate_topology json_data = Ok topology →
  source_items json_data "node" = Ok items →
  ∃ nodes,
    target_nodes topology = Ok (PDict nodes) ∧
    unique_keys nodes ∧
    (length nodes ≤ length items)%nat ∧
    ∀ k v, (k, v) ∈ nodes →
      ∃ node n h ip,
        node ∈ items ∧ node_entry node = Ok (n, v) ∧
        hashable n = Some h ∧ hashable k = Some h ∧
        v = clab_node ip ∧
        getitem v (PStr "kind") = Ok (PStr "nokia-sros") ∧
        getitem v (PStr "image") = Ok (PStr "containerlab/vr-sros") ∧
        getitem v (PStr "mgmt-ipv4") = Ok ip.
Proof.
  intros (items' & nodes & ? & links & Hi & Hn & _ & _ & ->)%generate_topology_Ok
    Hitems.
  rewrite Hitems in Hi. injection Hi as <-.
  exists nodes. split; [apply target_nodes_clab|].
  split; [eapply for_each_node_step_unique; [done|apply unique_keys_nil]|].
  split; [by apply for_each_node_step_length in Hn|].
  intros k v Hin.
  destruct (for_each_node_step_elem _ _ _ _ _ Hn Hin)
    as [?%elem_of_nil|(node & n & h & Hnode & He & Hh & Hk)]; [done|].
  destruct (node_entry_clab _ _ _ He) as [ip ->].
  by exists node, n, h, ip.
Qed.

Lemma target_nodes_from_source_witness :
  ∃ nodes,
    target_nodes (clab_topology [(PStr "R1", clab_node (PStr "10.0.0.2"))] [])
    = Ok (PDict nodes) ∧
    unique_keys nodes ∧
    (length nodes ≤ 2)%nat ∧
    ∀ k v, (k, v) ∈ nodes →
      ∃ node n h ip,
        node ∈ [ietf_node (PStr "1") (PStr "R1") (PList [PStr "10.0.0.1"]);
                ietf_node (PStr "2") (PStr "R1") (PList [PStr "10.0.0.2"])] ∧
        node_entry node = Ok (n, v) ∧
        hashable n = Some h ∧ hashable k = Some h ∧
        v = clab_node ip ∧
        getitem v (PStr "kind") = Ok (PStr "nokia-sros") ∧
        getitem v (PStr "image") = Ok (PStr "containerlab/vr-sros") ∧
        getitem v (PStr "mgmt-ipv4") = Ok ip.
Proof.
  exact (target_nodes_from_source
           (ietf_doc [ietf_node (PStr "1") (PStr "R1") (PList [PStr "10.0.0.1"]);
                      ietf_node (PStr "2") (PStr "R1") (PList [PStr "10.0.0.2"])] [])
           _ _ eq_refl eq_refl).
Defined.

(** X3: every source node of a translated document has an entry under its
    name in the target node mapping (its own, or that of a later node of
    the same name). *)
Theorem source_node_names_present json_data topology items node :
  generate_topology json_data = Ok topology →
  source_items json_data "node" = Ok items →
  node ∈ items →
  ∃ nodes n a v,
    target_nodes topology = Ok (PDict nodes) ∧
    node_entry node = Ok (n, a) ∧
    getitem (PDict nodes) n = Ok v.
Proof.
  intros (items' & nodes & ? & links & Hi & Hn & _ & _ & ->)%generate_topology_Ok
    Hitems Hnode.
  rewrite Hitems in Hi. injection Hi as <-.
  destruct (for_each_node_step_present _ _ _ _ Hn Hnode) as (n & a & h & He & Hh & [v Hv]).
  exists nodes, n, a, v. split; [apply target_nodes_clab|]. split; [done|].
  by eapply getitem_dict.
Qed.

Lemma source_node_names_present_witness :
  ∃ nodes n a v,
    target_nodes (clab_topology [(PStr "R1", clab_node (PStr "10.0.0.2"))] [])
    = Ok (PDict nodes) ∧
    node_entry (ietf_node (PStr "1") (PStr "R1") (PList [PStr "10.0.0.1"])) = Ok (n, a) ∧
    getitem (PDict nodes) n = Ok v.
Proof.
  apply (source_node_names_present
           (ietf_doc [ietf_node (PStr "1") (PStr "R1") (PList [PStr "10.0.0.1"]);
                      ietf_node (PStr "2") (PStr "R1") (PList [PStr "10.0.0.2"])] [])
           _ _ _ eq_refl eq_refl).
  by left.
Defined.

(** The translation of a document whose node loop raises. *)
Lemma generate_topology_node_raises json_data pre node post nodes e :
  source_items json_data "node" = Ok (pre ++ node :: post) →
  for_each node_step [] pre = Ok nodes →
  node_step nodes node = Raise e →
  generate_topology json_data = Raise e.
Proof.
  intros Hitems Hpre Hnode. unfold generate_topology. rewrite Hitems. cbn.
  by rewrite (for_each_raise _ _ _ _ _ _ _ Hpre Hnode).
Qed.

Lemma node_step_entry_raises nodes node e :
  node_entry node = Raise e → node_step nodes node = Raise e.
Proof. intros H. unfold node_step. by rewrite H. Qed.

(** X4: of the networks of a document only the first is translated; the
    other networks, and the other members of the document, are not
    read. *)
Theorem only_first_network d network others :
  dict_lookup (HStr "ietf-network:network") d = Some (PList (network :: others)) →
  generate_topology (PDict d)
  = generate_topology (PDict [ (PStr "ietf-network:network", PList [network]) ]).
Proof.
  intros Hd.
  assert (∀ field,
            source_items (PDict d) field
            = source_items (PDict [ (PStr "ietf-network:network", PList [network]) ]) field)
    as Hs.
  { intros field. unfold source_items. cbn. rewrite Hd. cbn.
    by rewrite (seq_index_first (network :: others) network). }
  unfold generate_topology. by rewrite !Hs.
Qed.

Lemma only_first_network_witness :
  generate_topology
    (PDict [ (PStr "ietf-network:network",
              PList [ PDict [ (PStr "node", PList []);
                              (PStr "ietf-network-topology:link",
                               PList [ietf_link (PStr "A--B")]) ];
                      PDict [ (PStr "node", PList []);
                              (PStr "ietf-network-topology:link",
                               PList [ietf_link (PStr "C--D")]) ] ]) ])
  = generate_topology (ietf_doc [] [ietf_link (PStr "A--B")]).
Proof.
  exact (only_first_network
           [ (PStr "ietf-network:network",
              PList [ PDict [ (PStr "node", PList []);
                              (PStr "ietf-network-topology:link",
                               PList [ietf_link (PStr "A--B")]) ];
                      PDict [ (PStr "node", PList []);
                              (PStr "ietf-network-topology:link",
                               PList [ietf_link (PStr "C--D")]) ] ]) ]
           (PDict [ (PStr "node", PList []);
                    (PStr "ietf-network-topology:link",
                     PList [ietf_link (PStr "A--B")]) ])
           [ PDict [ (PStr "node", PList []);
                     (PStr "ietf-network-topology:link",
                      PList [ietf_link (PStr "C--D")]) ] ] eq_refl).
Defined.

(** X5: a node without [node-id] ends the translation with
    [KeyError('node-id')], although the value is never used: the nodes
    before it and everything after it give no result. *)
Theorem node_without_id_aborts json_data pre d post nodes :
  source_items json_data "node" = Ok (pre ++ PDict d :: post) →
  for_each node_step [] pre = Ok nodes →
  dict_lookup (HStr "node-id") d = None →
  generate_topology json_data = Raise (KeyError (PStr "node-id")).
Proof.
  intros Hitems Hpre Hd.
  eapply generate_topology_node_raises; [done..|].
  apply node_step_entry_raises. unfold node_entry. cbn. by rewrite Hd.
Qed.

Lemma node_without_id_aborts_witness :
  generate_topology
    (ietf_doc
       [ ietf_node (PStr "1") (PStr "R1") (PList [PStr "10.0.0.1"]);
         PDict [ (node_attrs_key,
                  PDict [ (PStr "name", PStr "R2");
                          (PStr "management-address", PList [PStr "10.0.0.2"]) ]) ] ]
       [])
  = Raise (KeyError (PStr "node-id")).
Proof.
  eapply (node_without_id_aborts _
            [ ietf_node (PStr "1") (PStr "R1") (PList [PStr "10.0.0.1"]) ]
            [ (node_attrs_key,
               PDict [ (PStr "name", PStr "R2");
                       (PStr "management-address", PList [PStr "10.0.0.2"]) ]) ]
            []); reflexivity.
Defined.

(** X6: a [management-address] that is a str and not a list gives its
    first character as [mgmt-ipv4]: the address "10.0.0.1" gives "1". *)
Theorem address_str_first_character node node_id attrs name c rest :
  getitem node (PStr "node-id") = Ok node_id →
  getitem node node_attrs_key = Ok attrs →
  getitem attrs (PStr "name") = Ok name →
  getitem attrs (PStr "management-address") = Ok (PStr (String c rest)) →
  node_entry node = Ok (name, clab_node (PStr (String c EmptyString))).
Proof.
  intros Hid Ha Hn Hm. unfold node_entry.
  rewrite Hid. cbn. rewrite Ha. cbn. rewrite Hn. cbn. rewrite Hm. cbn.
  unfold chars. cbn [list_ascii_of_string fmap list_fmap].
  by rewrite (seq_index_first _ (PStr (String c EmptyString))).
Qed.

Lemma address_str_first_character_witness :
  node_entry (ietf_node (PStr "1") (PStr "R1") (PStr "10.0.0.1"))
  = Ok (PStr "R1", clab_node (PStr "1")).
Proof.
  exact (address_str_first_character
           (ietf_node (PStr "1") (PStr "R1") (PStr "10.0.0.1"))
           (PStr "1") _ (PStr "R1") "1"%char "0.0.0.1"
           eq_refl eq_refl eq_refl eq_refl).
Defined.



(** X8: a node whose name is a list or a dict ends the translation with
    [TypeError]: the name cannot be a key of the node mapping. *)
Theorem unhashable_name_aborts json_data pre node post nodes name a :
  source_items json_data "node" = Ok (pre ++ node :: post) →
  for_each node_step [] pre = Ok nodes →
  node_entry node = Ok (name, a) →
  hashable name = None →
  generate_topology json_data = Raise TypeError.
Proof.
  intros Hitems Hpre He Hh.
  eapply generate_topology_node_raises; [done..|].
  unfold node_step, dict_setitem. rewrite He. cbn. by rewrite Hh.
Qed.

Lemma unhashable_name_aborts_witness :
  generate_topology
    (ietf_doc [ietf_node (PStr "1") (PList [PStr "R1"]) (PList [PStr "10.0.0.1"])] [])
  = Raise TypeError.
Proof.
  eapply (unhashable_name_aborts _ [] _ [] []); reflexivity.
Defined.

(** X9: a link whose name is not a str ends the translation with
    [AttributeError], after a node loop that went through. *)
Theorem link_name_not_str_aborts json_data node_items nodes pre link post links name :
  source_items json_data "node" = Ok node_items →
  for_each node_step [] node_items = Ok nodes →
  source_items json_data "ietf-network-topology:link" = Ok (pre ++ link :: post) →
  for_each link_step [] pre = Ok links →
  link_name link = Ok name →
  (∀ s, name ≠ PStr s) →
  generate_topology json_data = Raise AttributeError.
Proof.
  intros Hn Hnodes Hl Hpre Hname Hstr.
  unfold generate_topology. rewrite Hn. cbn. rewrite Hnodes. cbn. rewrite Hl. cbn.
  erewrite for_each_raise; [done..|].
  unfold link_step, link_entry. unfold link_name in Hname.
  destruct (getitem link link_attrs_key) as [attrs|]; [|done].
  cbn in Hname |- *. rewrite Hname. cbn.
  destruct name; try done. by destruct (Hstr s).
Qed.

Lemma link_name_not_str_aborts_witness :
  generate_topology (ietf_doc [] [ietf_link (PStr "A--B"); ietf_link (PInt 7)])
  = Raise AttributeError.
Proof.
  eapply (link_name_not_str_aborts _ [] [] [ietf_link (PStr "A--B")] _ []);
    try reflexivity.
  done.
Defined.

Lemma link_entries_functional items es es' :
  Forall2 (λ link e, link_entry link = Ok e) items es →
  Forall2 (λ link e, link_entry link = Ok e) items es' →
  es = es'.
Proof.
  intros H. revert es'. induction H as [|x e items es He _ IH]; intros es' H'.
  - by apply Forall2_nil_inv_l in H'.
  - apply Forall2_cons_inv_l in H' as (e' & es'' & He' & H' & ->).
    rewrite He in He'. injection He' as <-. f_equal. by apply IH.
Qed.

(** X22: the target links depend on the source links alone: two
    translated documents with the same links have the same target links,
    whatever their nodes, so an endpoint that names no node passes
    unchanged. *)
Theorem links_whatever_the_nodes json_data json_data' topology topology' items :
  generate_topology json_data = Ok topology →
  generate_topology json_data' = Ok topology' →
  source_items json_data "ietf-network-topology:link" = Ok items →
  source_items json_data' "ietf-network-topology:link" = Ok items →
  target_links topology = target_links topology'.
Proof.
  intros (? & nodes & ? & links & _ & _ & Hi & Hl & ->)%generate_topology_Ok
         (? & nodes' & ? & links' & _ & _ & Hi' & Hl' & ->)%generate_topology_Ok
         Hitems Hitems'.
  rewrite Hitems in Hi. injection Hi as <-.
  rewrite Hitems' in Hi'. injection Hi' as <-.
  apply for_each_link_step in Hl as (es & -> & HF).
  apply for_each_link_step in Hl' as (es' & -> & HF').
  rewrite !target_links_clab. cbn [app].
  by rewrite (link_entries_functional _ _ _ HF HF').
Qed.

Lemma links_whatever_the_nodes_witness :
  target_links (clab_topology [] [clab_link (PStr "R1") (PStr "R9")])
  = target_links
      (clab_topology [(PStr "R1", clab_node (PStr "10.0.0.1"))]
         [clab_link (PStr "R1") (PStr "R9")]).
Proof.
  exact (links_whatever_the_nodes
           (ietf_doc [] [ietf_link (PStr "R1--R9")])
           (ietf_doc [ietf_node (PStr "1") (PStr "R1") (PList [PStr "10.0.0.1"])]
              [ietf_link (PStr "R1--R9")])
           _ _ [ietf_link (PStr "R1--R9")] eq_refl eq_refl eq_refl eq_refl).
Defined.

(** ** Basic authentication *)

Section base64.
Local Open Scope N_scope.

Lemma list_ind3 {A} (P : list A → Prop) :
  P [] → (∀ a, P [a]) → (∀ a b, P [a; b]) →
  (∀ a b c l, P l → P (a :: b :: c :: l)) →
  ∀ l, P l.
Proof.
  intros H0 H1 H2 H3 l.
  assert (P l ∧ (∀ a, P (a :: l)) ∧ ∀ a b, P (a :: b :: l)) as [? _]; [|done].
  induction l as [|c l (IH0 & IH1 & IH2)]; [by auto|].
  split; [by apply IH1|]. split; [by intros; apply IH2|]. intros a b. by apply H3.
Qed.

Lemma b64_char_index n :
  n < 64 → index_of (b64_char n) b64_alphabet = Some n ∧ Ascii.eqb (b64_char n) "=" = false.
Proof.
  intros Hn. destruct n as [|p]; [by vm_compute|].
  do 6 (destruct p as [p|p|]; try (by vm_compute)); lia.
Qed.

Local Ltac euclid := Z.to_euclidean_division_equations; lia.

Lemma quad_of_three a b c :
  a < 256 → b < 256 → c < 256 →
  let n := a * 65536 + b * 256 + c in
  b64_quad (b64_char (n / 262144)) (b64_char ((n / 4096) mod 64))
           (b64_char ((n / 64) mod 64)) (b64_char (n mod 64))
  = Some [a; b; c].
Proof.
  intros Ha Hb Hc n. unfold b64_quad.
  destruct (b64_char_index (n / 262144)) as [-> _]; [unfold n; zify; euclid|].
  destruct (b64_char_index ((n / 4096) mod 64)) as [-> _]; [zify; euclid|].
  destruct (b64_char_index ((n / 64) mod 64)) as [-> ->]; [zify; euclid|].
  destruct (b64_char_index (n mod 64)) as [-> ->]; [zify; euclid|].
  cbn. f_equal. unfold n. repeat f_equal; zify; euclid.
Qed.

Lemma quad_of_two a b :
  a < 256 → b < 256 →
  let n := a * 65536 + b * 256 in
  b64_quad (b64_char (n / 262144)) (b64_char ((n / 4096) mod 64))
           (b64_char ((n / 64) mod 64)) "="
  = Some [a; b].
Proof.
  intros Ha Hb n. unfold b64_quad.
  destruct (b64_char_index (n / 262144)) as [-> _]; [unfold n; zify; euclid|].
  destruct (b64_char_index ((n / 4096) mod 64)) as [-> _]; [zify; euclid|].
  destruct (b64_char_index ((n / 64) mod 64)) as [-> ->]; [zify; euclid|].
  cbn. f_equal. unfold n. repeat f_equal; zify; euclid.
Qed.

Lemma quad_of_one a :
  a < 256 →
  let n := a * 65536 in
  b64_quad (b64_char (n / 262144)) (b64_char ((n / 4096) mod 64)) "=" "="
  = Some [a].
Proof.
  intros Ha n. unfold b64_quad.
  destruct (b64_char_index (n / 262144)) as [-> _]; [unfold n; zify; euclid|].
  destruct (b64_char_index ((n / 4096) mod 64)) as [-> _]; [zify; euclid|].
  cbn. f_equal. unfold n. repeat f_equal; zify; euclid.
Qed.

(** Decoding what was encoded gives the bytes back. *)
Lemma b64_unbytes_bytes l : Forall (λ b, b < 256) l → b64_unbytes (b64_bytes l) = Some l.
Proof.
  induction l as [|a|a b|a b c l IH] using list_ind3; intros Hl.
  - done.
  - apply Forall_cons in Hl as [Ha _].
    cbn [b64_bytes b64_unbytes]. cbv zeta. by rewrite quad_of_one.
  - apply Forall_cons in Hl as [Ha [Hb _]%Forall_cons].
    cbn [b64_bytes b64_unbytes]. cbv zeta. by rewrite quad_of_two.
  - apply Forall_cons in Hl as [Ha [Hb [Hc Hl]%Forall_cons]%Forall_cons].
    cbn [b64_bytes b64_unbytes]. cbv zeta. rewrite quad_of_three by done.
    cbn. by rewrite IH.
Qed.


Lemma string_bytes_bounded s :
  Forall (λ b, b < 256) (N_of_ascii <$> list_ascii_of_string s).
Proof.
  induction s as [|c s IH]; [constructor|].
  cbn. constructor; [apply N_ascii_bounded|done].
Qed.

Lemma string_bytes_inj s1 s2 :
  N_of_ascii <$> list_ascii_of_string s1 = N_of_ascii <$> list_ascii_of_string s2 →
  s1 = s2.
Proof.
  revert s2. induction s1 as [|c1 s1 IH]; intros [|c2 s2]; try done.
  cbn. intros [= Hc Hs]. f_equal; [|by apply IH].
  by rewrite <- (ascii_N_embedding c1), <- (ascii_N_embedding c2), Hc.
Qed.

Lemma b64encode_inj s1 s2 : b64encode s1 = b64encode s2 → s1 = s2.
Proof.
  unfold b64encode. intros H. apply string_bytes_inj.
  apply (f_equal b64_unbytes) in H.
  rewrite !b64_unbytes_bytes in H by apply string_bytes_bounded.
  by injection H.
Qed.

End base64.



Lemma append_nil (b : string) : EmptyString +:+ b = b.
Proof. reflexivity. Qed.

(** A colon in neither user name: the joined credentials split in one
    way only. *)
Lemma credentials_split u p u' p' :
  has_char ":" u = false → has_char ":" u' = false →
  u +:+ ":" +:+ p = u' +:+ ":" +:+ p' →
  u = u' ∧ p = p'.
Proof.
  revert u'. induction u as [|c u IH]; intros [|c' u'];
    repeat (rewrite append_nil || rewrite append_cons); cbn [has_char].
  - by intros _ _ [= ->].
  - by intros _ [Hc _]%orb_false_iff [= <- _].
  - by intros [Hc _]%orb_false_iff _ [= -> _].
  - intros [_ Hu]%orb_false_iff [_ Hu']%orb_false_iff [= -> H].
    by destruct (IH _ Hu Hu' H) as [-> ->].
Qed.


(** X11: the Basic credential loses nothing: two pairs of user name and
    password whose user names hold no colon have the same credential
    only if they are the same pair. *)
Theorem basic_authentication_injective username password username' password' :
  has_char ":" username = false →
  has_char ":" username' = false →
  getBasicAuthentication username password
  = getBasicAuthentication username' password' →
  username = username' ∧ password = password'.
Proof.
  intros Hu Hu' H%b64encode_inj. by apply credentials_split.
Qed.

Lemma basic_authentication_injective_witness :
  "admin" = "admin" ∧ "secret" = "secret".
Proof.
  exact (basic_authentication_injective "admin" "secret" "admin" "secret"
           eq_refl eq_refl eq_refl).
Defined.

(** ** Every run of [main] *)

Section all_runs.
Context (w : world).
Implicit Types (t : list event) (proxies : list (string * string)).

(** [main] up to the session, whatever is typed. *)
Lemma main_cases server username password output proxy t :
  main w server username password output proxy t
  = match resolved (stdin_line w) username with
    | None => (Raise EOFError, t ++ [Printed (Text "Enter your username: ")])
    | Some u =>
        match resolved (tty_line w) password with
        | None => (Raise EOFError, t ++ prompt_events username password)
        | Some p =>
            session w server u p output (proxies_of proxy)
              (t ++ prompt_events username password)
        end
    end.
Proof.
  unfold resolved, prompt_events, main.
  fold (proxies_of proxy). fold (output_path w output).
  change (acquire w server ?a ?b (proxies_of proxy) ≫= ?k)
    with (session w server a b output (proxies_of proxy)).
  destruct username as [u0|], password as [p0|];
    cbn [truthy]; repeat case_match; simplify_eq;
    unfold get_username, getpass; io_unfold;
    repeat case_match; simplify_eq;
    cbn [app]; rewrite ?app_nil_r, <- ?app_assoc; done.
Qed.

(** The handlers of the [try] block never return: they exit or raise,
    after printing at most one message. *)
Lemma on_token_error_raises proxies token error t :
  ∃ e evs,
    on_token_error w proxies token error t = (Raise e, t ++ evs) ∧
    requests_of evs = [] ∧ files_of evs = [].
Proof.
  unfold on_token_error, environ_get. io_unfold.
  destruct error; repeat case_match; simplify_eq;
    try (by eexists _, []; rewrite app_nil_r);
    by eexists _, [_].
Qed.

(** The [try] block, whatever the answer. *)
Lemma acquire_cases server u p proxies t :
  let r1 := token_request server u p proxies in
  acquire w server u p proxies t
  = match send w r1 ≫= response_json with
    | Ok body =>
        match getitem body (PStr "access_token") with
        | Ok token => (Ok token, t ++ [Sent r1])
        | Raise error => on_token_error w proxies (Some body) error (t ++ [Sent r1])
        end
    | Raise error => on_token_error w proxies None error (t ++ [Sent r1])
    end.
Proof.
  intros r1. unfold acquire. rewrite getToken_run. fold r1.
  by destruct (send w r1 ≫= response_json).
Qed.

Lemma acquire_outcome server u p proxies t :
  let r1 := token_request server u p proxies in
  (∃ token, acquire w server u p proxies t = (Ok token, t ++ [Sent r1]))
  ∨ (∃ e evs,
       acquire w server u p proxies t = (Raise e, t ++ Sent r1 :: evs) ∧
       requests_of evs = [] ∧ files_of evs = []).
Proof.
  intros r1. rewrite acquire_cases. fold r1.
  destruct (send w r1 ≫= response_json) as [body|error].
  - destruct (getitem body (PStr "access_token")) as [token|error]; [left; eauto|].
    destruct (on_token_error_raises proxies (Some body) error (t ++ [Sent r1]))
      as (e & evs & -> & ? & ?).
    right. exists e, evs. by rewrite <- app_assoc.
  - destruct (on_token_error_raises proxies None error (t ++ [Sent r1]))
      as (e & evs & -> & ? & ?).
    right. exists e, evs. by rewrite <- app_assoc.
Qed.

(** The session after the [try] block, whatever the answers. *)
Lemma session_cases server u p output proxies t :
  session w server u p output proxies t
  = match acquire w server u p proxies t with
    | (Raise e, t1) => (Raise e, t1)
    | (Ok (PStr token), t1) =>
        match environ w !! "NSP_SERVER" with
        | None => (Raise (KeyError (PStr "NSP_SERVER")), t1)
        | Some nsp_server =>
            let r2 := topology_request nsp_server proxies (bearer_headers token) in
            let r3 := revocation_request server u p
                        ("token=" +:+ token +:+ "&token_type_hint=token") proxies in
            match send w r2 ≫= response_json with
            | Raise e => (Raise e, t1 ++ [Sent r2])
            | Ok l2topo =>
                match send w r3 with
                | Raise e => (Raise e, t1 ++ [Sent r2; Sent r3])
                | Ok revToken =>
                    (translate_and_write w output l2topo,
                     t1 ++ [Sent r2; Sent r3; revocation_report (status_code revToken)]
                        ++ file_events w output l2topo)
                end
            end
        end
    | (Ok _, t1) => (Raise TypeError, t1)
    end.
Proof.
  unfold session. unfold mbind at 1, IO_bind at 1.
  destruct (acquire w server u p proxies t) as [[token|e] t1]; [|done].
  unfold mbind at 1, IO_bind at 1, lift at 1.
  destruct token as [| | |token| |]; try done. cbn [str_concat].
  unfold mbind at 1, IO_bind at 1, lift at 1, environ_get.
  destruct (environ w !! "NSP_SERVER") as [nsp_server|]; [|done].
  unfold mbind at 1, IO_bind at 1. rewrite retrieveNspL2IetfTopo_run. cbv zeta.
  change [("Content-Type", "application/json"); ("Authorization", "Bearer " +:+ token)]
    with (bearer_headers token).
  destruct (send w _ ≫= response_json) as [l2topo|e]; [|done].
  unfold mbind at 1, IO_bind at 1. rewrite revokeToken_run. cbv zeta.
  destruct (send w (revocation_request _ _ _ _ _)) as [revToken|e];
    [|by rewrite <- app_assoc].
  unfold translate_and_write, file_events, write_yaml. io_unfold.
  destruct (generate_topology l2topo) as [topology|e];
    [destruct (can_open w (output_path w output))|];
    rewrite <- ?app_assoc; cbn [app]; by rewrite ?app_nil_r.
Qed.

Lemma files_of_file_events output l2topo :
  files_of (file_events w output l2topo)
  = match translate_and_write w output l2topo with
    | Ok _ => [output_path w output]
    | Raise _ => []
    end.
Proof.
  unfold file_events, translate_and_write.
  destruct (generate_topology l2topo); [|done].
  by destruct (can_open w (output_path w output)).
Qed.

Lemma files_of_report code : files_of [revocation_report code] = [].
Proof. unfold revocation_report. by destruct (code =? 200). Qed.

(** The shape of every session: its requests are the first ones of
    token, query, revocation, and it opens the output file when it
    returns, and only then. *)
Lemma session_shape server u p output proxies t :
  ∃ token nsp_server evs,
    (session w server u p output proxies t).2 = t ++ evs ∧
    requests_of evs
      `prefix_of` [ token_request server u p proxies;
                    topology_request nsp_server proxies (bearer_headers token);
                    revocation_request server u p
                      ("token=" +:+ token +:+ "&token_type_hint=token") proxies ] ∧
    files_of evs = match (session w server u p output proxies t).1 with
                   | Ok _ => [output_path w output]
                   | Raise _ => []
                   end.
Proof.
  rewrite session_cases.
  destruct (acquire_outcome server u p proxies t)
    as [[token ->]|(e & evs & -> & Hr & Hf)].
  2: { exists EmptyString, EmptyString, (Sent (token_request server u p proxies) :: evs).
       split; [done|]. cbn [requests_of files_of omap list_omap fst snd].
       fold (requests_of evs). fold (files_of evs). rewrite Hr, Hf.
       split; [|done]. by eexists [_; _]. }
  destruct token as [| | |token| |];
    try (exists EmptyString, EmptyString, [Sent (token_request server u p proxies)];
         split; [done|]; split; [by eexists [_; _]|done]).
  destruct (environ w !! "NSP_SERVER") as [nsp_server|].
  2: { exists token, EmptyString, [Sent (token_request server u p proxies)].
       split; [done|]. split; [by eexists [_; _]|done]. }
  cbv zeta. exists token, nsp_server.
  destruct (send w _ ≫= response_json) as [l2topo|e].
  2: { eexists [_; _]. rewrite <- app_assoc. split; [done|]. split; [by eexists [_]|done]. }
  destruct (send w (revocation_request _ _ _ _ _)) as [revToken|e].
  2: { eexists [_; _; _]. rewrite <- app_assoc. split; [done|].
       split; [by exists []|done]. }
  eexists (_ :: _ :: _ :: _ :: file_events w output l2topo).
  rewrite <- app_assoc. split; [done|]. cbn [fst snd].
  change (?a :: ?b :: ?c :: ?d :: file_events w output l2topo)
    with ([a; b; c] ++ [d] ++ file_events w output l2topo).
  rewrite !requests_of_app, !files_of_app, requests_of_report, files_of_report,
    requests_of_files, files_of_file_events.
  split; [by exists []|done].
Qed.

End all_runs.

(** The shape of every run. *)
Lemma run_shape w server username password output proxy :
  ∃ u p token nsp_server,
    requests_of (run w server username password output proxy).2
      `prefix_of` [ token_request server u p (proxies_of proxy);
                    topology_request nsp_server (proxies_of proxy) (bearer_headers token);
                    revocation_request server u p
                      ("token=" +:+ token +:+ "&token_type_hint=token")
                      (proxies_of proxy) ] ∧
    files_of (run w server username password output proxy).2
    = match (run w server username password output proxy).1 with
      | Ok _ => [output_path w output]
      | Raise _ => []
      end.
Proof.
  unfold run. rewrite main_cases.
  destruct (resolved (stdin_line w) username) as [u|].
  2: { exists EmptyString, EmptyString, EmptyString, EmptyString.
       split; [by eexists [_; _; _]|done]. }
  destruct (resolved (tty_line w) password) as [p|].
  2: { exists EmptyString, EmptyString, EmptyString, EmptyString. cbn [fst snd app].
       rewrite requests_of_prompts, files_of_prompts.
       split; [by eexists [_; _; _]|done]. }
  destruct (session_shape w server u p output (proxies_of proxy)
              ([] ++ prompt_events username password))
    as (token & nsp_server & evs & Ht & Hr & Hf).
  exists u, p, token, nsp_server. rewrite Ht. cbn [app].
  by rewrite requests_of_app, files_of_app, requests_of_prompts, files_of_prompts.
Qed.

(** X12: every run sends its requests in the order of the session: the
    token request, then the topology query, then the revocation, each at
    most once and none without the ones before it. *)
Theorem requests_in_session_order w server username password output proxy :
  ∃ u p token nsp_server,
    requests_of (run w server username password output proxy).2
      `prefix_of` [ token_request server u p (proxies_of proxy);
                    topology_request nsp_server (proxies_of proxy) (bearer_headers token);
                    revocation_request server u p
                      ("token=" +:+ token +:+ "&token_type_hint=token")
                      (proxies_of proxy) ].
Proof.
  destruct (run_shape w server username password output proxy)
    as (u & p & token & nsp_server & H & _).
  by exists u, p, token, nsp_server.
Qed.

(** X13: every request of every run is sent with certificate
    verification off and with the same proxies, those made from the
    [proxy] argument. *)
Theorem requests_unverified_same_proxies w server username password output proxy :
  Forall (λ r, req_verify r = false ∧ req_proxies r = proxies_of proxy)
    (requests_of (run w server username password output proxy).2).
Proof.
  destruct (run_shape w server username password output proxy)
    as (u & p & token & nsp_server & [k Hk] & _).
  assert (Forall (λ r, req_verify r = false ∧ req_proxies r = proxies_of proxy)
            (requests_of (run w server username password output proxy).2 ++ k)) as HF.
  { rewrite <- Hk. by repeat constructor. }
  by apply Forall_app in HF as [? _].
Qed.


(** X15: a run returns only after the whole session: credentials read,
    token issued as a str, NSP_SERVER set, query answered with a JSON body
    that translates, revocation answered, file opened; its trace is then
    the prompts, the three requests, the report of the revocation, and the
    file written with the translation. *)
Theorem run_returns_after_whole_session w server username password output proxy t :
  run w server username password output proxy = (Ok tt, t) →
  ∃ u p resp body token nsp_server l2resp l2topo revToken topology,
    let proxies := proxies_of proxy in
    let r1 := token_request server u p proxies in
    let r2 := topology_request nsp_server proxies (bearer_headers token) in
    let r3 := revocation_request server u p
                ("token=" +:+ token +:+ "&token_type_hint=token") proxies in
    resolved (stdin_line w) username = Some u ∧
    resolved (tty_line w) password = Some p ∧
    send w r1 = Ok resp ∧ json resp = Some body ∧
    getitem body (PStr "access_token") = Ok (PStr token) ∧
    environ w !! "NSP_SERVER" = Some nsp_server ∧
    send w r2 = Ok l2resp ∧ json l2resp = Some l2topo ∧
    send w r3 = Ok revToken ∧
    generate_topology l2topo = Ok topology ∧
    can_open w (output_path w output) = true ∧
    t = prompt_events username password
        ++ [ Sent r1; Sent r2; Sent r3; revocation_report (status_code revToken);
             Opened (output_path w output); Dumped (output_path w output) topology ].
Proof.
  unfold run. rewrite main_cases.
  destruct (resolved (stdin_line w) username) as [u|] eqn:Hu; [|done].
  destruct (resolved (tty_line w) password) as [p|] eqn:Hp; [|done].
  rewrite session_cases, acquire_cases. cbv zeta. cbn [app].
  destruct (send w (token_request server u p (proxies_of proxy))) as [resp|e] eqn:H1;
    cbn [mbind result_bind].
  2: { destruct (on_token_error_raises w (proxies_of proxy) None e
                   (prompt_events username password
                    ++ [Sent (token_request server u p (proxies_of proxy))]))
         as (? & ? & -> & _). done. }
  unfold response_json at 1. destruct (json resp) as [body|] eqn:Hj.
  2: { destruct (on_token_error_raises w (proxies_of proxy) None JSONDecodeError
                   (prompt_events username password
                    ++ [Sent (token_request server u p (proxies_of proxy))]))
         as (? & ? & -> & _). done. }
  destruct (getitem body (PStr "access_token")) as [token|e] eqn:Hg.
  2: { destruct (on_token_error_raises w (proxies_of proxy) (Some body) e
                   (prompt_events username password
                    ++ [Sent (token_request server u p (proxies_of proxy))]))
         as (? & ? & -> & _). done. }
  destruct token as [| | |token| |]; try done.
  destruct (environ w !! "NSP_SERVER") as [nsp_server|] eqn:Henv; [|done].
  destruct (send w (topology_request _ _ _)) as [l2resp|e] eqn:H2;
    cbn [mbind result_bind]; [|done].
  unfold response_json at 1. destruct (json l2resp) as [l2topo|] eqn:Hj2; [|done].
  destruct (send w (revocation_request _ _ _ _ _)) as [revToken|e] eqn:H3; [|done].
  unfold translate_and_write, file_events.
  destruct (generate_topology l2topo) as [topology|e] eqn:Hgen; [|done].
  destruct (can_open w (output_path w output)) eqn:Hopen; [|done].
  intros [= <-].
  exists u, p, resp, body, token, nsp_server, l2resp, l2topo, revToken, topology.
  cbv zeta. rewrite <- !app_assoc. by repeat split.
Qed.

Lemma run_returns_after_whole_session_witness :
  ∃ u p resp body token nsp_server l2resp l2topo revToken topology,
    resolved None (Some "admin") = Some u ∧
    resolved None (Some "secret") = Some p ∧
    send world_revocation_refused (token_request "10.0.0.1" u p []) = Ok resp ∧
    json resp = Some body ∧
    getitem body (PStr "access_token") = Ok (PStr token) ∧
    environ world_revocation_refused !! "NSP_SERVER" = Some nsp_server ∧
    send world_revocation_refused (topology_request nsp_server [] (bearer_headers token))
    = Ok l2resp ∧
    json l2resp = Some l2topo ∧
    send world_revocation_refused
      (revocation_request "10.0.0.1" u p
         ("token=" +:+ token +:+ "&token_type_hint=token") []) = Ok revToken ∧
    generate_topology l2topo = Ok topology ∧
    can_open world_revocation_refused "/home/user/data.clab.yaml" = true ∧
    [ Sent (token_request "10.0.0.1" "admin" "secret" []);
      Sent (topology_request "10.0.0.1" [] (bearer_headers "T"));
      Sent (revocation_request "10.0.0.1" "admin" "secret"
              "token=T&token_type_hint=token" []);
      Printed (Text "Error after token revocation attempt.");
      Opened "/home/user/data.clab.yaml";
      Dumped "/home/user/data.clab.yaml" (clab_topology [] []) ]
    = [ Sent (token_request "10.0.0.1" u p []);
        Sent (topology_request nsp_server [] (bearer_headers token));
        Sent (revocation_request "10.0.0.1" u p
                ("token=" +:+ token +:+ "&token_type_hint=token") []);
        revocation_report (status_code revToken);
        Opened "/home/user/data.clab.yaml";
        Dumped "/home/user/data.clab.yaml" topology ].
Proof.
  exact (run_returns_after_whole_session world_revocation_refused
           "10.0.0.1" (Some "admin") (Some "secret") None None _ eq_refl).
Defined.

(** ** The ways a run ends early *)

(** X16: when the credentials cannot be read (end of input at a prompt),
    the run ends on [EOFError] and no request is sent. *)
Theorem no_credentials_no_request w server username password output proxy :
  resolved (stdin_line w) username = None ∨ resolved (tty_line w) password = None →
  (run w server username password output proxy).1 = Raise EOFError
  ∧ requests_of (run w server username password output proxy).2 = []
  ∧ exit_status (run w server username password output proxy).1 = 1.
Proof.
  intros H. unfold run. rewrite main_cases.
  destruct (resolved (stdin_line w) username) as [u|]; [|done].
  destruct H as [?|Hp]; [done|]. rewrite Hp. cbn [fst snd app].
  by rewrite requests_of_prompts.
Qed.

Lemma no_credentials_no_request_witness :
  (run world_two_servers "10.0.0.1" None (Some "secret") None None).1 = Raise EOFError
  ∧ requests_of (run world_two_servers "10.0.0.1" None (Some "secret") None None).2 = []
  ∧ exit_status (run world_two_servers "10.0.0.1" None (Some "secret") None None).1 = 1.
Proof.
  apply (no_credentials_no_request world_two_servers "10.0.0.1" None (Some "secret")
           None None).
  left. reflexivity.
Defined.

(** X17: when the token request raises a proxy error and PROXY_USER is
    set, the handler prints its message, with the proxies and that user,
    and the run ends by [sys.exit(0)]: one request sent, exit status 0. *)
Theorem proxy_error_exits_zero w server username password output proxy u p proxy_user :
  resolved (stdin_line w) username = Some u →
  resolved (tty_line w) password = Some p →
  send w (token_request server u p (proxies_of proxy)) = Raise ProxyError →
  environ w !! "PROXY_USER" = Some proxy_user →
  run w server username password output proxy
  = (Raise (SystemExit 0),
     prompt_events username password
     ++ [ Sent (token_request server u p (proxies_of proxy));
          Printed (ProxyFailure ProxyError (proxies_of proxy) proxy_user) ])
  ∧ exit_status (run w server username password output proxy).1 = 0.
Proof.
  intros Hu Hp Hs He.
  assert (run w server username password output proxy
          = (Raise (SystemExit 0),
             prompt_events username password
             ++ [ Sent (token_request server u p (proxies_of proxy));
                  Printed (ProxyFailure ProxyError (proxies_of proxy) proxy_user) ]))
    as Hrun.
  { unfold run. rewrite (main_session w _ _ _ _ _ u p) by done.
    apply session_no_token. rewrite acquire_cases. cbv zeta. rewrite Hs.
    cbn [mbind result_bind app]. unfold on_token_error, environ_get. io_unfold.
    rewrite He. by rewrite <- app_assoc. }
  by rewrite Hrun.
Qed.

Lemma proxy_error_exits_zero_witness :
  run (plain_world {[ "PROXY_USER" := "operator" ]}
         (scripted (Raise ProxyError) (Raise ProxyError) (Raise ProxyError)))
    "10.0.0.1" (Some "admin") (Some "secret") None (Some "proxy:3128")
  = (Raise (SystemExit 0),
     [ Sent (token_request "10.0.0.1" "admin" "secret" [ ("https", "http://proxy:3128") ]);
       Printed (ProxyFailure ProxyError [ ("https", "http://proxy:3128") ] "operator") ])
  ∧ exit_status
      (run (plain_world {[ "PROXY_USER" := "operator" ]}
              (scripted (Raise ProxyError) (Raise ProxyError) (Raise ProxyError)))
         "10.0.0.1" (Some "admin") (Some "secret") None (Some "proxy:3128")).1 = 0.
Proof.
  exact (proxy_error_exits_zero
           (plain_world {[ "PROXY_USER" := "operator" ]}
              (scripted (Raise ProxyError) (Raise ProxyError) (Raise ProxyError)))
           "10.0.0.1" (Some "admin") (Some "secret") None (Some "proxy:3128")
           "admin" "secret" "operator" eq_refl eq_refl eq_refl eq_refl).
Defined.

(** X18: with NSP_SERVER not in the environment, a run that has got its
    token ends on [KeyError('NSP_SERVER')] before the query: the token
    request is the only request, and the token is not revoked. *)
Theorem no_NSP_SERVER_leaves_token w server username password output proxy
    u p resp body token :
  resolved (stdin_line w) username = Some u →
  resolved (tty_line w) password = Some p →
  send w (token_request server u p (proxies_of proxy)) = Ok resp →
  json resp = Some body →
  getitem body (PStr "access_token") = Ok (PStr token) →
  environ w !! "NSP_SERVER" = None →
  run w server username password output proxy
  = (Raise (KeyError (PStr "NSP_SERVER")),
     prompt_events username password
     ++ [ Sent (token_request server u p (proxies_of proxy)) ])
  ∧ revocations_of (run w server username password output proxy).2 = []
  ∧ exit_status (run w server username password output proxy).1 = 1.
Proof.
  intros Hu Hp Hs Hj Hg He.
  assert (run w server username password output proxy
          = (Raise (KeyError (PStr "NSP_SERVER")),
             prompt_events username password
             ++ [ Sent (token_request server u p (proxies_of proxy)) ])) as Hrun.
  { unfold run. rewrite (main_session w _ _ _ _ _ u p) by done.
    rewrite session_cases, (acquire_token w _ _ _ _ _ _ _ _ Hs Hj Hg).
    by rewrite He. }
  rewrite Hrun. cbn [fst snd]. split; [done|]. split; [|done].
  unfold revocations_of. rewrite requests_of_app, requests_of_prompts.
  cbn [app requests_of omap list_omap]. rewrite filter_cons, filter_nil.
  rewrite token_request_not_revocation. by case_decide.
Qed.

Lemma no_NSP_SERVER_leaves_token_witness :
  run (plain_world ∅ (scripted (Ok (token_response "T")) (Raise RequestException)
                                (Raise RequestException)))
    "10.0.0.1" (Some "admin") (Some "secret") None None
  = (Raise (KeyError (PStr "NSP_SERVER")),
     [ Sent (token_request "10.0.0.1" "admin" "secret" []) ])
  ∧ revocations_of
      (run (plain_world ∅ (scripted (Ok (token_response "T")) (Raise RequestException)
                                     (Raise RequestException)))
         "10.0.0.1" (Some "admin") (Some "secret") None None).2 = []
  ∧ exit_status
      (run (plain_world ∅ (scripted (Ok (token_response "T")) (Raise RequestException)
                                     (Raise RequestException)))
         "10.0.0.1" (Some "admin") (Some "secret") None None).1 = 1.
Proof.
  exact (no_NSP_SERVER_leaves_token
           (plain_world ∅ (scripted (Ok (token_response "T")) (Raise RequestException)
                                     (Raise RequestException)))
           "10.0.0.1" (Some "admin") (Some "secret") None None
           "admin" "secret" (token_response "T")
           (PDict [ (PStr "access_token", PStr "T") ]) "T"
           eq_refl eq_refl eq_refl eq_refl eq_refl eq_refl).
Defined.

(** X19: an [access_token] that is not a str (a number, null, a list)
    ends the run on [TypeError] when the Bearer header is built: no query
    and no revocation are sent for the token the controller issued. *)
Theorem token_not_str_is_TypeError w server username password output proxy
    u p resp body token :
  resolved (stdin_line w) username = Some u →
  resolved (tty_line w) password = Some p →
  send w (token_request server u p (proxies_of proxy)) = Ok resp →
  json resp = Some body →
  getitem body (PStr "access_token") = Ok token →
  (∀ s, token ≠ PStr s) →
  run w server username password output proxy
  = (Raise TypeError,
     prompt_events username password
     ++ [ Sent (token_request server u p (proxies_of proxy)) ])
  ∧ exit_status (run w server username password output proxy).1 = 1.
Proof.
  intros Hu Hp Hs Hj Hg Hstr.
  assert (run w server username password output proxy
          = (Raise TypeError,
             prompt_events username password
             ++ [ Sent (token_request server u p (proxies_of proxy)) ])) as Hrun.
  { unfold run. rewrite (main_session w _ _ _ _ _ u p) by done.
    rewrite session_cases, (acquire_token w _ _ _ _ _ _ _ _ Hs Hj Hg).
    destruct token; try done. by destruct (Hstr s). }
  by rewrite Hrun.
Qed.

Lemma token_not_str_is_TypeError_witness :
  run (plain_world ∅
         (scripted (Ok {| status_code := 200;
                          json := Some (PDict [ (PStr "access_token", PInt 42) ]) |})
                   (Raise RequestException) (Raise RequestException)))
    "10.0.0.1" (Some "admin") (Some "secret") None None
  = (Raise TypeError, [ Sent (token_request "10.0.0.1" "admin" "secret" []) ])
  ∧ exit_status
      (run (plain_world ∅
              (scripted (Ok {| status_code := 200;
                               json := Some (PDict [ (PStr "access_token", PInt 42) ]) |})
                        (Raise RequestException) (Raise RequestException)))
         "10.0.0.1" (Some "admin") (Some "secret") None None).1 = 1.
Proof.
  eapply (token_not_str_is_TypeError
            (plain_world ∅
               (scripted (Ok {| status_code := 200;
                                json := Some (PDict [ (PStr "access_token", PInt 42) ]) |})
                         (Raise RequestException) (Raise RequestException)))
            "10.0.0.1" (Some "admin") (Some "secret") None None
            "admin" "secret" _ _ (PInt 42)); try reflexivity.
  done.
Defined.

(** X20: a token answer whose body is not JSON is not an authentication
    failure for the code: the decode error is caught by no handler, the
    run ends on it with exit status 1, nothing printed. *)
Theorem token_body_not_json_uncaught w server username password output proxy
    u p resp :
  resolved (stdin_line w) username = Some u →
  resolved (tty_line w) password = Some p →
  send w (token_request server u p (proxies_of proxy)) = Ok resp →
  json resp = None →
  run w server username password output proxy
  = (Raise JSONDecodeError,
     prompt_events username password
     ++ [ Sent (token_request server u p (proxies_of proxy)) ])
  ∧ exit_status (run w server username password output proxy).1 = 1.
Proof.
  intros Hu Hp Hs Hj.
  assert (run w server username password output proxy
          = (Raise JSONDecodeError,
             prompt_events username password
             ++ [ Sent (token_request server u p (proxies_of proxy)) ])) as Hrun.
  { unfold run. rewrite (main_session w _ _ _ _ _ u p) by done.
    apply session_no_token. rewrite acquire_cases. cbv zeta. rewrite Hs.
    cbn [mbind result_bind]. unfold response_json. by rewrite Hj. }
  by rewrite Hrun.
Qed.

Lemma token_body_not_json_uncaught_witness :
  run (plain_world ∅
         (scripted (Ok {| status_code := 502; json := None |})
                   (Raise RequestException) (Raise RequestException)))
    "10.0.0.1" (Some "admin") (Some "secret") None None
  = (Raise JSONDecodeError, [ Sent (token_request "10.0.0.1" "admin" "secret" []) ])
  ∧ exit_status
      (run (plain_world ∅
              (scripted (Ok {| status_code := 502; json := None |})
                        (Raise RequestException) (Raise RequestException)))
         "10.0.0.1" (Some "admin") (Some "secret") None None).1 = 1.
Proof.
  exact (token_body_not_json_uncaught
           (plain_world ∅
              (scripted (Ok {| status_code := 502; json := None |})
                        (Raise RequestException) (Raise RequestException)))
           "10.0.0.1" (Some "admin") (Some "secret") None None
           "admin" "secret" {| status_code := 502; json := None |}
           eq_refl eq_refl eq_refl eq_refl).
Defined.

(** X21: a revocation request that raises (the network fails) ends the
    run on that exception: the topology that was retrieved is not
    translated and no file is opened. *)
Theorem revocation_exception_ends_run w server username password output proxy
    u p resp body token nsp_server l2topo e :
  let proxies := proxies_of proxy in
  let r1 := token_request server u p proxies in
  let r2 := topology_request nsp_server proxies (bearer_headers token) in
  let r3 := revocation_request server u p
              ("token=" +:+ token +:+ "&token_type_hint=token") proxies in
  resolved (stdin_line w) username = Some u →
  resolved (tty_line w) password = Some p →
  send w r1 = Ok resp →
  json resp = Some body →
  getitem body (PStr "access_token") = Ok (PStr token) →
  environ w !! "NSP_SERVER" = Some nsp_server →
  send w r2 ≫= response_json = Ok l2topo →
  send w r3 = Raise e →
  run w server username password output proxy
  = (Raise e, prompt_events username password ++ [Sent r1; Sent r2; Sent r3])
  ∧ files_of (run w server username password output proxy).2 = [].
Proof.
  intros proxies r1 r2 r3 Hu Hp Hs Hj Hg Henv H2 H3.
  assert (run w server username password output proxy
          = (Raise e, prompt_events username password ++ [Sent r1; Sent r2; Sent r3]))
    as Hrun.
  { unfold run. rewrite (main_session w _ _ _ _ _ u p) by done.
    rewrite session_cases, (acquire_token w _ _ _ _ _ _ _ _ Hs Hj Hg).
    rewrite Henv. cbv zeta. fold proxies r2 r3. rewrite H2, H3.
    by rewrite <- app_assoc. }
  rewrite Hrun. split; [done|]. cbn [snd].
  by rewrite files_of_app, files_of_prompts.
Qed.

Lemma revocation_exception_ends_run_witness :
  run (plain_world {[ "NSP_SERVER" := "10.0.0.1" ]}
         (scripted (Ok (token_response "T"))
                   (Ok {| status_code := 200; json := Some (ietf_doc [] []) |})
                   (Raise RequestException)))
    "10.0.0.1" (Some "admin") (Some "secret") None None
  = (Raise RequestException,
     [ Sent (token_request "10.0.0.1" "admin" "secret" []);
       Sent (topology_request "10.0.0.1" [] (bearer_headers "T"));
       Sent (revocation_request "10.0.0.1" "admin" "secret"
               "token=T&token_type_hint=token" []) ])
  ∧ files_of
      (run (plain_world {[ "NSP_SERVER" := "10.0.0.1" ]}
              (scripted (Ok (token_response "T"))
                        (Ok {| status_code := 200; json := Some (ietf_doc [] []) |})
                        (Raise RequestException)))
         "10.0.0.1" (Some "admin") (Some "secret") None None).2 = [].
Proof.
  exact (revocation_exception_ends_run
           (plain_world {[ "NSP_SERVER" := "10.0.0.1" ]}
              (scripted (Ok (token_response "T"))
                        (Ok {| status_code := 200; json := Some (ietf_doc [] []) |})
                        (Raise RequestException)))
           "10.0.0.1" (Some "admin") (Some "secret") None None
           "admin" "secret" (token_response "T")
           (PDict [ (PStr "access_token", PStr "T") ]) "T" "10.0.0.1"
           (ietf_doc [] []) RequestException
           eq_refl eq_refl eq_refl eq_refl eq_refl eq_refl eq_refl eq_refl).
Defined.
